(** * kiva-tool: the paginated loan fetcher and the youth filter

    A shallow embedding of [exploratory_script.py]: the GraphQL fetch
    ([fetch_loans]), the youth driver ([get_youth_loans]), the diagnostic
    path ([debug_age_field]) and the entry point ([main]).

    Python values that come out of [response.json()] are modelled by
    [pyval]; exceptions by an error monad; [print], [time.sleep] and
    [session.post] by a trace of events.  The remote service is an
    oracle ([world]) that answers the n-th POST of a run. *)

From Stdlib Require Import ZArith String Ascii List Bool Lia.
From Stdlib Require Import PrimFloat SpecFloat FloatOps FloatAxioms DecimalString.
From Stdlib Require DecimalPos DecimalZ.
Import ListNotations.
Open Scope Z_scope.

(* ------------------------------------------------------------------ *)
(** ** Python values *)

(** What [json.loads] can produce.  A dict is kept as an association
    list in insertion order; the parser never yields two entries with
    one key, and [dict_get] reads the first one. *)
#[local] Set Warnings "-register-all".
Inductive pyval : Type :=
| PNone
| PBool (b : bool)
| PInt (z : Z)
| PFloat (f : float)
| PStr (s : string)
| PList (l : list pyval)
| PDict (d : list (string * pyval)).

(** The exceptions the script can meet.  All of them derive from
    [Exception], so the handler of [fetch_loans] catches each one. *)
Inductive exn : Type :=
| ConnectionError
| Timeout
| JSONDecodeError
| KeyError (key : string)
| TypeError
| AttributeError
| OtherError (name : string).

Inductive result (A : Type) : Type :=
| Ok (a : A)
| Raise (e : exn).
Arguments Ok {A} a.
Arguments Raise {A} e.

Definition rbind {A B} (r : result A) (k : A -> result B) : result B :=
  match r with
  | Ok a => k a
  | Raise e => Raise e
  end.

Declare Scope py_scope.
Delimit Scope py_scope with py.
Notation "x <-- r ; k" := (rbind r (fun x => k))
  (at level 61, r at next level, right associativity) : py_scope.

Fixpoint dict_get (k : string) (d : list (string * pyval)) : option pyval :=
  match d with
  | [] => None
  | (k', v) :: d' => if String.eqb k k' then Some v else dict_get k d'
  end.

Definition dict_has (k : string) (d : list (string * pyval)) : bool :=
  match dict_get k d with Some _ => true | None => false end.

(** [v == s] for a string literal [s]. *)
Definition py_eq_str (v : pyval) (s : string) : bool :=
  match v with
  | PStr t => String.eqb t s
  | _ => false
  end.

(** [v[k]] with a string key: only a dict accepts it. *)
Definition py_getitem (v : pyval) (k : string) : result pyval :=
  match v with
  | PDict d =>
      match dict_get k d with
      | Some x => Ok x
      | None => Raise (KeyError k)
      end
  | _ => Raise TypeError
  end.

(** [v.get(k)]: the entry, or [None] when the key is absent. *)
Definition py_get (v : pyval) (k : string) : result pyval :=
  match v with
  | PDict d =>
      match dict_get k d with
      | Some x => Ok x
      | None => Ok PNone
      end
  | _ => Raise AttributeError
  end.

(** Does [k] occur in [s] as a substring? *)
Fixpoint substringb (k s : string) : bool :=
  String.prefix k s ||
  match s with
  | EmptyString => false
  | String _ s' => substringb k s'
  end.

(** [k in v] for a string [k]: key of a dict, element of a list,
    substring of a string; anything else is not a container. *)
Definition py_in (k : string) (v : pyval) : result bool :=
  match v with
  | PDict d => Ok (dict_has k d)
  | PList l => Ok (existsb (fun x => py_eq_str x k) l)
  | PStr s => Ok (substringb k s)
  | _ => Raise TypeError
  end.

(** Truth value of an object. *)
Definition py_truthy (v : pyval) : bool :=
  match v with
  | PNone => false
  | PBool b => b
  | PInt z => negb (z =? 0)
  | PFloat f => negb (PrimFloat.eqb f 0%float)
  | PStr s => negb (String.eqb s EmptyString)
  | PList l => match l with [] => false | _ => true end
  | PDict d => match d with [] => false | _ => true end
  end.

Definition Z_of_bool (b : bool) : Z := if b then 1 else 0.

Fixpoint float_of_pos (p : positive) : float :=
  match p with
  | xH => 1%float
  | xO q => (2 * float_of_pos q)%float
  | xI q => (2 * float_of_pos q + 1)%float
  end.

(** The double with the value of an int; exact below 2^53, which covers
    the two int literals the script compares with (18 and 26). *)
Definition float_of_Z (z : Z) : float :=
  match z with
  | Z0 => 0%float
  | Zpos p => float_of_pos p
  | Zneg p => (- float_of_pos p)%float
  end.

(** [x <= v] for an int [x]: numbers compare by value ([bool] is an
    int, a float is met as a double); anything else raises. *)
Definition int_le_py (x : Z) (v : pyval) : result bool :=
  match v with
  | PInt y => Ok (x <=? y)
  | PBool y => Ok (x <=? Z_of_bool y)
  | PFloat g => Ok (PrimFloat.leb (float_of_Z x) g)
  | _ => Raise TypeError
  end.

(** [v <= y] for an int [y]. *)
Definition py_le_int (v : pyval) (y : Z) : result bool :=
  match v with
  | PInt x => Ok (x <=? y)
  | PBool x => Ok (Z_of_bool x <=? y)
  | PFloat f => Ok (PrimFloat.leb f (float_of_Z y))
  | _ => Raise TypeError
  end.

(** The elements a [for] loop visits: a list yields its items, a dict
    its keys, a string its characters. *)
Fixpoint chars (s : string) : list pyval :=
  match s with
  | EmptyString => []
  | String c s' => PStr (String c EmptyString) :: chars s'
  end.

Definition py_iter (v : pyval) : result (list pyval) :=
  match v with
  | PList l => Ok l
  | PDict d => Ok (map (fun kv => PStr (fst kv)) d)
  | PStr s => Ok (chars s)
  | _ => Raise TypeError
  end.

(** [str(n)] of an int. *)
Definition str_of_int (z : Z) : string := NilZero.string_of_int (Z.to_int z).

(** [range(lo, hi)]. *)
Definition py_range (lo hi : Z) : list Z :=
  map (fun i => lo + Z.of_nat i) (seq 0 (Z.to_nat (hi - lo))).

(* ------------------------------------------------------------------ *)
(** ** The outside world: requests, responses, the trace *)

Record request : Type := {
  rq_url : string;
  rq_headers : list (string * string);
  rq_json : pyval;
  rq_timeout : Z
}.

(** What the script reads of a [requests.Response]: [json] is what a
    call of [response.json()] does, a value or an exception. *)
Record response : Type := {
  status_code : Z;
  text : string;
  json : result pyval
}.

(** A printed argument is a run of pieces: literal text, [str(v)] of a
    value, [str(e)] of an exception (the last two are left unrendered). *)
Inductive piece : Type :=
| Lit (s : string)
| StrOf (v : pyval)
| ExcOf (e : exn).

Inductive event : Type :=
| EvPost (rq : request)
| EvPrint (args : list (list piece))
| EvSleep (seconds : float).

(** The answer to the n-th POST of a run (counted from 0): the call
    raises, or returns a response. *)
Definition world : Type := nat -> request -> result response.

(** A run: its outcome, the number of POSTs made so far, what it
    printed, posted and slept. *)
Record run (A : Type) : Type := Run {
  value : result A;
  posts : nat;
  events : list event
}.
Arguments Run {A} value posts events.
Arguments value {A} r.
Arguments posts {A} r.
Arguments events {A} r.

Definition M (A : Type) : Type := nat -> run A.

Definition ret {A} (a : A) : M A := fun n => Run (Ok a) n [].

Definition bind {A B} (m : M A) (k : A -> M B) : M B :=
  fun n =>
    let r := m n in
    match value r with
    | Ok a =>
        let r' := k a (posts r) in
        Run (value r') (posts r') (events r ++ events r')
    | Raise e => Run (Raise e) (posts r) (events r)
    end.

(** [try: m except Exception as e: h e]. *)
Definition try_except {A} (m : M A) (h : exn -> M A) : M A :=
  fun n =>
    let r := m n in
    match value r with
    | Ok a => r
    | Raise e =>
        let r' := h e (posts r) in
        Run (value r') (posts r') (events r ++ events r')
    end.

Definition lift {A} (r : result A) : M A := fun n => Run r n [].

Definition emit (ev : event) : M unit := fun n => Run (Ok tt) n [ev].

Definition print (args : list (list piece)) : M unit := emit (EvPrint args).

Definition sleep (seconds : float) : M unit := emit (EvSleep seconds).

Notation "x <- m ;; k" := (bind m (fun x => k))
  (at level 61, m at next level, right associativity) : py_scope.
Notation "m ;; k" := (bind m (fun _ => k))
  (at level 61, right associativity) : py_scope.

Open Scope py_scope.

(** A [for] loop whose body updates the loop-carried value. *)
Fixpoint for_each {A S} (xs : list A) (body : A -> S -> M S) (acc : S) : M S :=
  match xs with
  | [] => ret acc
  | x :: xs' => acc' <- body x acc ;; for_each xs' body acc'
  end.

Fixpoint rfold {A S} (f : A -> S -> result S) (xs : list A) (acc : S) : result S :=
  match xs with
  | [] => Ok acc
  | x :: xs' => acc' <-- f x acc ; rfold f xs' acc'
  end.

(* ------------------------------------------------------------------ *)
(** ** The script *)

Definition GRAPHQL_URL : string := "https://gateway.production.kiva.org/graphql".

Definition HEADERS : list (string * string) :=
  [ ("Content-Type", "application/json");
    ("User-Agent",
     "Mozilla/5.0 (Macintosh; Intel Mac OS X 10_15_7) AppleWebKit/537.36 (KHTML, like Gecko) Chrome/120.0.0.0 Safari/537.36");
    ("Origin", "https://www.kiva.org");
    ("Referer", "https://www.kiva.org/lend");
    ("Accept", "*/*");
    ("Accept-Language", "en-US,en;q=0.9");
    ("Connection", "keep-alive") ]%string.

Definition nl : string := String (ascii_of_nat 10) EmptyString.

(** The f-string of [fetch_loans], line by line. *)
Definition query_text (page per_page : Z) : string :=
  String.concat nl
    [ EmptyString;
      "    {";
      "      fundraisingLoans(limit:" ++ str_of_int per_page
        ++ ", pageNumber:" ++ str_of_int page ++ ", sortBy:mostRecent) {";
      "        values {";
      "          __typename";
      "          id";
      "          name";
      "          ... on LoanDirect {";
      "            ageAtTimeOfLoan";
      "          }";
      "        }";
      "      }";
      "    }";
      "    " ]%string.

(** The POST of [fetch_loans]: the session carries [HEADERS]. *)
Definition loans_request (page per_page : Z) : request :=
  {| rq_url := GRAPHQL_URL;
     rq_headers := HEADERS;
     rq_json := PDict [("query"%string, PStr (query_text page per_page))];
     rq_timeout := 15 |}.

Definition blocked_notice : string :=
  "Blocked (403). Kiva is rejecting automated requests.".

(** [data["data"]["fundraisingLoans"]["values"]]. *)
Definition loan_values (data : pyval) : result pyval :=
  d <-- py_getitem data "data" ;
  fl <-- py_getitem d "fundraisingLoans" ;
  py_getitem fl "values".

Section Script.

Variable net : world.

(** [session.post(...)]: one more POST, answered by the world. *)
Definition session_post (rq : request) : M response :=
  fun n => Run (net n rq) (S n) [EvPost rq].

(** The body of the [try] block of [fetch_loans]. *)
Definition fetch_body (page per_page : Z) : M pyval :=
  response <- session_post (loans_request page per_page) ;;
  if status_code response =? 403 then
    print [[Lit blocked_notice]] ;;
    ret (PList [])
  else if negb (status_code response =? 200) then
    print [[Lit ("STATUS: " ++ str_of_int (status_code response))%string]] ;;
    print [[Lit (text response)]] ;;
    ret (PList [])
  else
    data <- lift (json response) ;;
    has_errors <- lift (py_in "errors" data) ;;
    if has_errors then
      errors <- lift (py_getitem data "errors") ;;
      print [[Lit "GraphQL Error:"]; [StrOf errors]] ;;
      ret (PList [])
    else
      lift (loan_values data).

Definition fetch_loans (page per_page : Z) : M pyval :=
  try_except (fetch_body page per_page)
    (fun e =>
       print [[Lit "Request failed:"]; [ExcOf e]] ;;
       ret (PList [])).

(** The [if] of the inner loop of [get_youth_loans]:
    [age and 18 <= age <= 26]. *)
Definition youth_test (age : pyval) : result bool :=
  if py_truthy age then
    lo <-- int_le_py 18 age ;
    if lo then py_le_int age 26 else Ok false
  else Ok false.

(** One turn of the inner loop: [youth] is the list being built. *)
Definition scan_loan (loan : pyval) (youth : list pyval) : result (list pyval) :=
  typename <-- py_getitem loan "__typename" ;
  if py_eq_str typename "LoanDirect" then
    age <-- py_get loan "ageAtTimeOfLoan" ;
    keep <-- youth_test age ;
    if keep then
      id <-- py_getitem loan "id" ;
      name <-- py_getitem loan "name" ;
      Ok (youth ++ [PDict [("id"%string, id); ("name"%string, name);
                           ("age"%string, age)]])
    else Ok youth
  else Ok youth.

(** One turn of the page loop of [get_youth_loans]. *)
Definition scan_page (page : Z) (youth : list pyval) : M (list pyval) :=
  print [[Lit ("Scanning page " ++ str_of_int page ++ "...")%string]] ;;
  loans <- fetch_loans page 20 ;;
  items <- lift (py_iter loans) ;;
  youth' <- for_each items (fun loan acc => lift (scan_loan loan acc)) youth ;;
  sleep 1.5%float ;;
  ret youth'.

Definition get_youth_loans (pages : Z) : M (list pyval) :=
  for_each (py_range 1 (pages + 1)) scan_page [].

(** One turn of the inner loop of [debug_age_field]. *)
Definition debug_loan (loan : pyval) : M unit :=
  typename <- lift (py_getitem loan "__typename") ;;
  if py_eq_str typename "LoanDirect" then
    id <- lift (py_getitem loan "id") ;;
    name <- lift (py_getitem loan "name") ;;
    age <- lift (py_get loan "ageAtTimeOfLoan") ;;
    print [[Lit "LoanDirect | ID: "; StrOf id; Lit " | Name: "; StrOf name;
            Lit " | Age: "; StrOf age]]
  else ret tt.

Definition debug_page (page : Z) (_ : unit) : M unit :=
  print [[Lit (nl ++ "--- Page " ++ str_of_int page ++ " ---")%string]] ;;
  loans <- fetch_loans page 20 ;;
  items <- lift (py_iter loans) ;;
  for_each items (fun loan _ => debug_loan loan) tt.

Definition debug_age_field (pages : Z) : M unit :=
  for_each (py_range 1 (pages + 1)) debug_page tt.

(** [if __name__ == "__main__"]. *)
Definition main : M unit := debug_age_field 3.

End Script.

(* ------------------------------------------------------------------ *)
(** ** The vocabulary of the specification *)

(** The age of the data model: absent ([None]) or a number. *)
Definition age_value (a : pyval) : bool :=
  match a with
  | PNone | PBool _ | PInt _ | PFloat _ => true
  | _ => false
  end.

(** A LoanRecord of the data model: an object with a discriminant, an
    id and a name; for the [LoanDirect] kind the age, when there is
    one, is null or a number. *)
Definition loan_record (v : pyval) : bool :=
  match v with
  | PDict d =>
      match dict_get "__typename" d with
      | Some t =>
          dict_has "id" d && dict_has "name" d &&
          (negb (py_eq_str t "LoanDirect") ||
           match dict_get "ageAtTimeOfLoan" d with
           | Some a => age_value a
           | None => true
           end)
      | None => false
      end
  | _ => false
  end.

(** A fetched page of the data model: a sequence of LoanRecords. *)
Definition loan_page (v : pyval) : bool :=
  match v with
  | PList l => forallb loan_record l
  | _ => false
  end.

Definition page_items (v : pyval) : list pyval :=
  match v with
  | PList l => l
  | _ => []
  end.

(** The discriminant of a record is [LoanDirect]. *)
Definition is_loan_direct (v : pyval) : bool :=
  match v with
  | PDict d =>
      match dict_get "__typename" d with
      | Some t => py_eq_str t "LoanDirect"
      | None => false
      end
  | _ => false
  end.

(** An age within [18, 26] inclusive. *)
Definition in_range (a : pyval) : bool :=
  match a with
  | PInt z => (18 <=? z) && (z <=? 26)
  | PFloat f => (PrimFloat.leb 18%float f && PrimFloat.leb f 26%float)%bool
  | _ => false
  end.

(** The age field of a record is present and within [18, 26]. *)
Definition has_youth_age (v : pyval) : bool :=
  match v with
  | PDict d =>
      match dict_get "ageAtTimeOfLoan" d with
      | Some a => in_range a
      | None => false
      end
  | _ => false
  end.

(** The youth filter of the specification. *)
Definition is_youth (v : pyval) : bool := is_loan_direct v && has_youth_age v.

Definition field (k : string) (v : pyval) : pyval :=
  match v with
  | PDict d => match dict_get k d with Some x => x | None => PNone end
  | _ => PNone
  end.

(** The YouthLoan projected from a record: id, name and age, copied. *)
Definition youth_of (v : pyval) : pyval :=
  PDict [("id"%string, field "id" v); ("name"%string, field "name" v);
         ("age"%string, field "ageAtTimeOfLoan" v)].

(** What the inner loop of [get_youth_loans] does with a fetched value. *)
Definition scan_items (loans : pyval) (youth : list pyval) : result (list pyval) :=
  items <-- py_iter loans ;
  rfold scan_loan items youth.

(** The value [fetch_loans(page)] returns when [n] POSTs were made before. *)
Definition fetch_result (net : world) (page : Z) (n : nat) : pyval :=
  match value (fetch_loans net page 20 n) with
  | Ok v => v
  | Raise _ => PList []
  end.

(** The values the fetches of the pages [pgs] return, in order. *)
Fixpoint fetch_results_from (net : world) (pgs : list Z) (n : nat) : list pyval :=
  match pgs with
  | [] => []
  | p :: ps => fetch_result net p n :: fetch_results_from net ps (S n)
  end.

Definition fetch_results (net : world) (pages : Z) (n : nat) : list pyval :=
  fetch_results_from net (py_range 1 (pages + 1)) n.

Definition is_print (e : event) : bool :=
  match e with EvPrint _ => true | _ => false end.

(** The POSTs and the pauses of a trace, in order. *)
Definition schedule (es : list event) : list event :=
  filter (fun e => negb (is_print e)) es.



(** Some printed line has the text [s] in it. *)
Definition logs_text (s : string) (es : list event) : Prop :=
  exists args arg t,
    In (EvPrint args) es /\ In arg args /\ In (Lit t) arg /\ substringb s t = true.

(* ------------------------------------------------------------------ *)
(** ** Worlds and records used as test inputs *)

Definition page_response (vals : pyval) : response :=
  {| status_code := 200;
     text := EmptyString;
     json := Ok (PDict [("data"%string,
                  PDict [("fundraisingLoans"%string,
                    PDict [("values"%string, vals)])])]) |}.

(** The first POST is answered with the page [vals], later ones time out. *)
Definition one_page_world (vals : pyval) : world :=
  fun n _ => match n with O => Ok (page_response vals) | S _ => Raise Timeout end.

(** Every POST is answered with the same response. *)
Definition const_world (r : result response) : world := fun _ _ => r.

Definition loan_L1 : pyval :=
  PDict [("__typename", PStr "LoanDirect"); ("id", PStr "L1");
         ("name", PStr "A"); ("ageAtTimeOfLoan", PInt 22)]%string.

Definition loan_L2 : pyval :=
  PDict [("__typename", PStr "LoanBasketItem"); ("id", PStr "L2");
         ("name", PStr "B")]%string.

Definition loan_direct (age : pyval) : pyval :=
  PDict [("__typename", PStr "LoanDirect"); ("id", PStr "L7");
         ("name", PStr "C"); ("ageAtTimeOfLoan", age)]%string.


(* ------------------------------------------------------------------ *)
(** ** Lines of the trace *)

Definition failed_line (e : exn) : event :=
  EvPrint [[Lit "Request failed:"]; [ExcOf e]].

Definition blocked_line : event := EvPrint [[Lit blocked_notice]].

Definition status_line (status : Z) : event :=
  EvPrint [[Lit ("STATUS: " ++ str_of_int status)%string]].

Definition errors_line (errors : pyval) : event :=
  EvPrint [[Lit "GraphQL Error:"]; [StrOf errors]].

Definition scanning_line (page : Z) : event :=
  EvPrint [[Lit ("Scanning page " ++ str_of_int page ++ "...")%string]].

Definition pause : event := EvSleep 1.5%float.

Definition page_line (page : Z) : event :=
  EvPrint [[Lit (nl ++ "--- Page " ++ str_of_int page ++ " ---")%string]].




Arguments loans_request : simpl never.
Arguments str_of_int : simpl never.
Arguments String.append : simpl never.


(** A 403 answer whose body is a GraphQL error report. *)
Definition errors_body : pyval :=
  PDict [("errors"%string, PList [PStr "rate limited"])].

Definition blocked_response : response :=
  {| status_code := 403; text := "Forbidden"; json := Ok errors_body |}.


(** A [LoanDirect] record with neither id nor age. *)
Definition loan_no_id : pyval :=
  PDict [("__typename", PStr "LoanDirect"); ("name", PStr "B")]%string.

(** A record without discriminant. *)
Definition loan_no_kind : pyval :=
  PDict [("id", PStr "L9"); ("name", PStr "D")]%string.

(** A pause between consecutive pages only. *)
Definition pauses_between_pages : list event :=
  [EvPost (loans_request 1 20); pause;
   EvPost (loans_request 2 20); pause;
   EvPost (loans_request 3 20)].



(** The key whose lookup stops the inner loop of the driver on the
    object [d], if any: the discriminant first; id, then name, once the
    record has passed the youth filter. *)
Definition missing_key (d : list (string * pyval)) : option string :=
  if negb (dict_has "__typename" d) then Some "__typename"%string
  else if is_youth (PDict d) then
    if negb (dict_has "id" d) then Some "id"%string
    else if negb (dict_has "name" d) then Some "name"%string
    else None
  else None.

(** The YouthLoan the example of the specification expects. *)
Definition youth_L1 : pyval :=
  PDict [("id", PStr "L1"); ("name", PStr "A"); ("age", PInt 22)]%string.

(** The driver's POSTs and pauses for three pages. *)
Definition three_pages_schedule : list event :=
  [EvPost (loans_request 1 20); pause;
   EvPost (loans_request 2 20); pause;
   EvPost (loans_request 3 20); pause].

(** The POSTs and pauses of a run of the driver that visits the pages
    [pgs] to the end: one POST per page, a pause after it. *)
Definition page_schedule (pgs : list Z) : list event :=
  flat_map (fun p => [EvPost (loans_request p 20); pause]) pgs.

Definition is_sleep (e : event) : bool :=
  match e with EvSleep _ => true | _ => false end.

(** A value a [for] loop cannot visit. *)
Definition not_iterable (v : pyval) : bool :=
  match v with
  | PNone | PBool _ | PInt _ | PFloat _ => true
  | _ => false
  end.

(** An entry of the shape the driver builds, with an age in [18, 26]. *)
Definition youth_entry (y : pyval) : bool :=
  match y with
  | PDict [(k1, _); (k2, _); (k3, a)] =>
      String.eqb k1 "id" && String.eqb k2 "name" && String.eqb k3 "age"
      && in_range a
  | _ => false
  end.

(** A POST that yields no page: it raises, or its status is not 200. *)
Definition no_page (o : result response) : bool :=
  match o with
  | Raise _ => true
  | Ok resp => negb (status_code resp =? 200)
  end.

(** Every POST is refused with status 500. *)
Definition down_world : world :=
  const_world (Ok {| status_code := 500; text := "down"; json := Raise JSONDecodeError |}).

(** A [LoanDirect] record without id whose age is outside the range. *)
Definition loan_old_no_id : pyval :=
  PDict [("__typename", PStr "LoanDirect"); ("name", PStr "E");
         ("ageAtTimeOfLoan", PInt 40)]%string.

(** The first two POSTs are answered with the pages [v1] and [v2],
    later ones time out. *)
Definition two_page_world (v1 v2 : pyval) : world :=
  fun n _ =>
    match n with
    | O => Ok (page_response v1)
    | S O => Ok (page_response v2)
    | _ => Raise Timeout
    end.


Definition no_sleep (e : event) : bool := negb (is_sleep e).

(** Does the character [c] occur in [s]? *)
Fixpoint has_char (c : ascii) (s : string) : bool :=
  match s with
  | EmptyString => false
  | String a s' => Ascii.eqb a c || has_char c s'
  end.

(** CPython refuses to print an int of more than 4300 digits (the
    default of [sys.int_max_str_digits]): formatting it in an f-string
    raises [ValueError]. *)
Definition int_max_str_digits : Z := 4300.

Definition ValueError : exn := OtherError "ValueError".

Definition format_int (z : Z) : result string :=
  if Z.abs z <? 10 ^ int_max_str_digits then Ok (str_of_int z)
  else Raise ValueError.

(** A call of [fetch_loans] from its first line: the query f-string is
    built before the [try] block is entered, so a failure to print
    [per_page] or [page] (in this order) is not caught; then comes the
    [try] block, which is [fetch_loans]. *)
Definition fetch_loans_call (net : world) (page per_page : Z) : M pyval :=
  _ <- lift (format_int per_page) ;;
  _ <- lift (format_int page) ;;
  fetch_loans net page per_page.

(* ------------------------------------------------------------------ *)
(** ** The youth test and one turn of the inner loop *)

Lemma float_of_Z_18 : float_of_Z 18 = 18%float.
Proof. reflexivity. Qed.

Lemma float_of_Z_26 : float_of_Z 26 = 26%float.
Proof. reflexivity. Qed.

(** A float that equals zero is below 18. *)
Lemma float_zero_below_18 (f : float) :
  PrimFloat.eqb f 0%float = true -> PrimFloat.leb 18%float f = false.
Proof.
  rewrite FloatAxioms.eqb_spec, FloatAxioms.leb_spec.
  replace (Prim2SF 0%float) with (S754_zero false) by reflexivity.
  replace (Prim2SF 18%float) with (S754_finite false 5066549580791808 (-48))
    by reflexivity.
  destruct (Prim2SF f) as [s | s | | s m e]; simpl.
  - reflexivity.
  - destruct s; discriminate.
  - discriminate.
  - destruct s; discriminate.
Qed.

(** On the ages of the data model the test of the script is the
    interval test: truthiness only rules out [None], [False] and zero. *)
Lemma youth_test_number (a : pyval) :
  age_value a = true -> youth_test a = Ok (in_range a).
Proof.
  destruct a as [ | b | z | f | s | l | d]; simpl; try discriminate; intros _.
  - reflexivity.
  - unfold youth_test; simpl. destruct b; reflexivity.
  - unfold youth_test; simpl.
    destruct (Z.eqb_spec z 0) as [-> | Hz]; simpl; [reflexivity | ].
    destruct (18 <=? z); reflexivity.
  - unfold youth_test, py_truthy, int_le_py, py_le_int, rbind.
    rewrite float_of_Z_18, float_of_Z_26.
    destruct (PrimFloat.eqb f 0%float) eqn:E; simpl.
    + rewrite (float_zero_below_18 f E). reflexivity.
    + destruct (PrimFloat.leb 18%float f); reflexivity.
Qed.

(** The test never lets an age outside the interval through. *)
Lemma youth_test_true (a : pyval) :
  youth_test a = Ok true -> in_range a = true.
Proof.
  destruct a as [ | b | z | f | s | l | d];
    unfold youth_test, py_truthy, int_le_py, py_le_int, rbind; try discriminate.
  - destruct b; simpl; discriminate.
  - destruct (z =? 0); simpl; [discriminate | ].
    destruct (18 <=? z); simpl; [ | discriminate]. intros H; injection H; auto.
  - rewrite float_of_Z_18, float_of_Z_26.
    destruct (PrimFloat.eqb f 0%float); simpl; [discriminate | ].
    destruct (PrimFloat.leb 18%float f); simpl; [ | discriminate].
    intros H; injection H; auto.
  - destruct (String.eqb s EmptyString); simpl; discriminate.
  - destruct l; simpl; discriminate.
  - destruct d; simpl; discriminate.
Qed.

Lemma in_range_test (a : pyval) :
  in_range a = true -> youth_test a = Ok true.
Proof.
  intros H. rewrite youth_test_number.
  - now rewrite H.
  - destruct a; simpl in *; try discriminate; reflexivity.
Qed.

Lemma snoc_neq {A} (l : list A) (x : A) : l ++ [x] <> l.
Proof.
  intros H. apply (f_equal (@length A)) in H.
  rewrite length_app in H. simpl in H. lia.
Qed.

(** One turn of the inner loop on a LoanRecord: append the projection
    when the record passes the youth filter, skip it otherwise. *)
Lemma scan_loan_record (r : pyval) (youth : list pyval) :
  loan_record r = true ->
  scan_loan r youth = Ok (if is_youth r then youth ++ [youth_of r] else youth).
Proof.
  destruct r as [ | | | | | | d]; simpl; try discriminate.
  unfold scan_loan, is_youth, youth_of, dict_has; simpl.
  destruct (dict_get "__typename" d) as [t | ] eqn:Et; [ | discriminate]; simpl.
  destruct (dict_get "id" d) as [i | ] eqn:Ei; [ | discriminate]; simpl.
  destruct (dict_get "name" d) as [nm | ] eqn:En; [ | discriminate]; simpl.
  destruct (py_eq_str t "LoanDirect"); simpl; [ | reflexivity].
  destruct (dict_get "ageAtTimeOfLoan" d) as [a | ] eqn:Ea; simpl.
  - intros Ha. rewrite (youth_test_number a Ha); simpl.
    destruct (in_range a); reflexivity.
  - reflexivity.
Qed.

(** The inner loop over a sequence of LoanRecords is the filter
    followed by the projection, appended to what was there. *)
Lemma rfold_scan_records (l : list pyval) :
  forall youth,
    forallb loan_record l = true ->
    rfold scan_loan l youth = Ok (youth ++ map youth_of (filter is_youth l)).
Proof.
  induction l as [ | r l IH]; intros youth H; simpl in *.
  - now rewrite app_nil_r.
  - apply andb_true_iff in H as [Hr Hl].
    rewrite (scan_loan_record r youth Hr); simpl.
    destruct (is_youth r); simpl.
    + rewrite (IH _ Hl), <- app_assoc. reflexivity.
    + apply (IH _ Hl).
Qed.

Lemma scan_items_page (v : pyval) (youth : list pyval) :
  loan_page v = true ->
  scan_items v youth = Ok (youth ++ map youth_of (filter is_youth (page_items v))).
Proof.
  destruct v; simpl; try discriminate.
  intros H. unfold scan_items; simpl. now apply rfold_scan_records.
Qed.

(** The loop over pages of LoanRecords. *)
Lemma rfold_scan_pages (vs : list pyval) :
  forall youth,
    forallb loan_page vs = true ->
    rfold scan_items vs youth
    = Ok (youth ++ map youth_of (filter is_youth (concat (map page_items vs)))).
Proof.
  induction vs as [ | v vs IH]; intros youth H; simpl in *.
  - now rewrite app_nil_r.
  - apply andb_true_iff in H as [Hv Hvs].
    rewrite (scan_items_page v youth Hv); simpl.
    rewrite (IH _ Hvs), filter_app, map_app, app_assoc. reflexivity.
Qed.


(** Outside the interval the test, when it answers, answers no. *)
Lemma youth_test_false (a : pyval) :
  youth_test a = Ok false -> in_range a = false.
Proof.
  intros H.
  destruct (age_value a) eqn:Ea.
  - rewrite (youth_test_number a Ea) in H. now injection H.
  - destruct a; try discriminate; reflexivity.
Qed.

(** Whatever the record, a turn of the inner loop that does not raise
    has appended the projection of the record when it passes the youth
    filter, and nothing otherwise. *)
Lemma scan_loan_ok (r : pyval) (youth out : list pyval) :
  scan_loan r youth = Ok out ->
  out = youth ++ map youth_of (filter is_youth [r]).
Proof.
  unfold scan_loan, is_youth, is_loan_direct, has_youth_age, youth_of, field.
  destruct r as [ | | | | | | d]; cbn [py_getitem py_get rbind filter];
    try discriminate.
  destruct (dict_get "__typename" d) as [t | ]; cbn [rbind]; [ | discriminate].
  destruct (py_eq_str t "LoanDirect"); cbn [andb map].
  2:{ intros H. injection H as <-. now rewrite app_nil_r. }
  assert (Hage : forall a,
             (keep <-- youth_test a ;
              if keep
              then id <-- py_getitem (PDict d) "id" ;
                   name <-- py_getitem (PDict d) "name" ;
                   Ok (youth ++ [PDict [("id"%string, id); ("name"%string, name);
                                        ("age"%string, a)]])
              else Ok youth) = Ok out ->
             out = youth ++
                   map (fun v => PDict
                          [("id"%string, match dict_get "id" d with
                                         | Some x => x | None => PNone end);
                           ("name"%string, match dict_get "name" d with
                                           | Some x => x | None => PNone end);
                           ("age"%string, a)])
                     (if in_range a then [PDict d] else [])).
  { intros a. destruct (youth_test a) as [[ | ] | e] eqn:Ea; cbn [rbind].
    - rewrite (youth_test_true a Ea). cbn [py_getitem map].
      destruct (dict_get "id" d) as [i | ]; cbn [rbind]; [ | discriminate].
      destruct (dict_get "name" d) as [nm | ]; cbn [rbind]; [ | discriminate].
      intros H. now injection H as <-.
    - rewrite (youth_test_false a Ea). cbn [map].
      intros H. injection H as <-. now rewrite app_nil_r.
    - discriminate. }
  destruct (dict_get "ageAtTimeOfLoan" d) as [a | ] eqn:Ea; cbn [rbind];
    intros H; apply Hage in H.
  - destruct (in_range a); cbn [map] in *; rewrite ?Ea; exact H.
  - cbn [in_range map] in *. exact H.
Qed.

Lemma rfold_scan_ok (l : list pyval) :
  forall youth out,
    rfold scan_loan l youth = Ok out ->
    out = youth ++ map youth_of (filter is_youth l).
Proof.
  induction l as [ | r l IH]; intros youth out; cbn [rfold].
  - intros H. injection H as <-. now rewrite app_nil_r.
  - destruct (scan_loan r youth) as [youth' | e] eqn:E; cbn [rbind];
      [ | discriminate].
    intros H. apply IH in H. apply scan_loan_ok in E. subst.
    change (r :: l) with ([r] ++ l).
    now rewrite filter_app, map_app, app_assoc.
Qed.

(** A value that is no list either holds nothing to visit or makes
    the inner loop raise on its first item. *)
Lemma scan_items_ok (v : pyval) (youth out : list pyval) :
  scan_items v youth = Ok out ->
  out = youth ++ map youth_of (filter is_youth (page_items v)).
Proof.
  unfold scan_items.
  destruct v as [ | | | | s | l | d]; cbn [py_iter rbind page_items];
    try discriminate.
  - destruct s; cbn; [ | discriminate].
    intros H. injection H as <-. now rewrite app_nil_r.
  - apply rfold_scan_ok.
  - destruct d; cbn; [ | discriminate].
    intros H. injection H as <-. now rewrite app_nil_r.
Qed.

Lemma rfold_scan_pages_ok (vs : list pyval) :
  forall youth out,
    rfold scan_items vs youth = Ok out ->
    out = youth ++ map youth_of (filter is_youth (concat (map page_items vs))).
Proof.
  induction vs as [ | v vs IH]; intros youth out; cbn [rfold map concat].
  - intros H. injection H as <-. now rewrite app_nil_r.
  - destruct (scan_items v youth) as [youth' | e] eqn:E; cbn [rbind];
      [ | discriminate].
    intros H. apply IH in H. apply scan_items_ok in E. subst.
    now rewrite filter_app, map_app, app_assoc.
Qed.

(* ------------------------------------------------------------------ *)
(** ** Runs *)

Lemma run_eta {A} (r : run A) : Run (value r) (posts r) (events r) = r.
Proof. destruct r; reflexivity. Qed.

Lemma bind_ok {A B} (m : M A) (k : A -> M B) (n n' : nat) (a : A) es :
  m n = Run (Ok a) n' es ->
  bind m k n = Run (value (k a n')) (posts (k a n')) (es ++ events (k a n')).
Proof. intros H. unfold bind. rewrite H. reflexivity. Qed.

Lemma bind_raise {A B} (m : M A) (k : A -> M B) (n n' : nat) (e : exn) es :
  m n = Run (Raise e) n' es ->
  bind m k n = Run (Raise e) n' es.
Proof. intros H. unfold bind. rewrite H. reflexivity. Qed.

Lemma for_each_lift {A S} (f : A -> S -> result S) (xs : list A) :
  forall (acc : S) (n : nat),
    for_each xs (fun x a => lift (f x a)) acc n = Run (rfold f xs acc) n [].
Proof.
  induction xs as [ | x xs IH]; intros acc n; [reflexivity | ].
  cbn [for_each rfold].
  destruct (f x acc) as [acc' | e]; cbn [rbind].
  - rewrite (bind_ok _ _ n n acc' []) by reflexivity.
    rewrite IH. reflexivity.
  - rewrite (bind_raise _ _ n n e []) by reflexivity.
    reflexivity.
Qed.

Lemma schedule_app (es es' : list event) :
  schedule (es ++ es') = schedule es ++ schedule es'.
Proof. apply filter_app. Qed.

Lemma schedule_prints (log : list event) :
  forallb is_print log = true -> schedule log = [].
Proof.
  induction log as [ | e log IH]; [reflexivity | ].
  cbn. intros H. apply andb_true_iff in H as [He Hl].
  rewrite He. cbn. auto.
Qed.

(* ------------------------------------------------------------------ *)
(** ** The fetcher, case by case *)

Ltac run_fetch :=
  unfold fetch_loans, try_except, fetch_body, bind, session_post, print, emit,
    lift, ret, failed_line, blocked_line, status_line, errors_line;
  cbn [value posts events app].

(** The POST itself raises. *)
Lemma fetch_post_raises (net : world) (page per_page : Z) (n : nat) (e : exn) :
  net n (loans_request page per_page) = Raise e ->
  fetch_loans net page per_page n
  = Run (Ok (PList [])) (S n)
      [EvPost (loans_request page per_page); failed_line e].
Proof. intros H. run_fetch. rewrite H. reflexivity. Qed.

Lemma fetch_403 (net : world) (page per_page : Z) (n : nat) (resp : response) :
  net n (loans_request page per_page) = Ok resp ->
  status_code resp = 403 ->
  fetch_loans net page per_page n
  = Run (Ok (PList [])) (S n)
      [EvPost (loans_request page per_page); blocked_line].
Proof. intros H E. run_fetch. rewrite H, E. reflexivity. Qed.

Lemma fetch_other_status (net : world) (page per_page : Z) (n : nat)
    (resp : response) :
  net n (loans_request page per_page) = Ok resp ->
  status_code resp <> 403 ->
  status_code resp <> 200 ->
  fetch_loans net page per_page n
  = Run (Ok (PList [])) (S n)
      [EvPost (loans_request page per_page);
       status_line (status_code resp);
       EvPrint [[Lit (text resp)]]].
Proof.
  intros H E1 E2. run_fetch. rewrite H.
  destruct (Z.eqb_spec (status_code resp) 403); [contradiction | ].
  destruct (Z.eqb_spec (status_code resp) 200); [contradiction | ].
  reflexivity.
Qed.




(** A 200 response without [errors]: the chained lookup decides. *)
Lemma fetch_no_errors (net : world) (page per_page : Z) (n : nat)
    (resp : response) (data : pyval) :
  net n (loans_request page per_page) = Ok resp ->
  status_code resp = 200 ->
  json resp = Ok data ->
  py_in "errors" data = Ok false ->
  fetch_loans net page per_page n
  = match loan_values data with
    | Ok v => Run (Ok v) (S n) [EvPost (loans_request page per_page)]
    | Raise e =>
        Run (Ok (PList [])) (S n)
          [EvPost (loans_request page per_page); failed_line e]
    end.
Proof.
  intros H E J I. run_fetch. rewrite H, E, J. cbn. rewrite I. cbn.
  destruct (loan_values data); reflexivity.
Qed.

(** Whatever the world answers, the fetcher returns a value, after
    exactly one POST, and everything else it does is printing. *)
Lemma fetch_loans_total (net : world) (page per_page : Z) (n : nat) :
  exists v log,
    fetch_loans net page per_page n
    = Run (Ok v) (S n) (EvPost (loans_request page per_page) :: log)
    /\ forallb is_print log = true.
Proof.
  run_fetch.
  destruct (net n (loans_request page per_page)) as [resp | e]; cbn.
  2:{ eexists _, _. split; reflexivity. }
  destruct (status_code resp =? 403); cbn.
  { eexists _, _. split; reflexivity. }
  destruct (status_code resp =? 200); cbn.
  2:{ eexists _, _. split; reflexivity. }
  destruct (json resp) as [data | e]; cbn.
  2:{ eexists _, _. split; reflexivity. }
  destruct (py_in "errors" data) as [[ | ] | e]; cbn.
  - destruct (py_getitem data "errors"); cbn;
      eexists _, _; split; reflexivity.
  - destruct (loan_values data); cbn; eexists _, _; split; reflexivity.
  - eexists _, _. split; reflexivity.
Qed.

Lemma fetch_loans_run (net : world) (page : Z) (n : nat) :
  exists log,
    fetch_loans net page 20 n
    = Run (Ok (fetch_result net page n)) (S n)
        (EvPost (loans_request page 20) :: log)
    /\ forallb is_print log = true.
Proof.
  unfold fetch_result.
  destruct (fetch_loans_total net page 20 n) as (v & log & H & Hlog).
  exists log. rewrite H. cbn [value]. split; [reflexivity | exact Hlog].
Qed.

Lemma fetch_loans_schedule (net : world) (page : Z) (n : nat) :
  schedule (events (fetch_loans net page 20 n))
  = [EvPost (loans_request page 20)].
Proof.
  destruct (fetch_loans_run net page n) as (log & H & Hlog).
  rewrite H. cbn [events].
  change (EvPost (loans_request page 20) :: log)
    with ([EvPost (loans_request page 20)] ++ log).
  rewrite schedule_app, (schedule_prints log Hlog). reflexivity.
Qed.

(* ------------------------------------------------------------------ *)
(** ** The loops *)

(** One turn of the page loop of the driver: its value is the inner
    loop run on what the fetch returned; it posts once; it pauses when
    the inner loop did not raise. *)
Lemma scan_page_run (net : world) (page : Z) (youth : list pyval) (n : nat) :
  scan_page net page youth n
  = Run (scan_items (fetch_result net page n) youth) (S n)
      (scanning_line page :: events (fetch_loans net page 20 n)
       ++ match scan_items (fetch_result net page n) youth with
          | Ok _ => [pause]
          | Raise _ => []
          end).
Proof.
  destruct (fetch_loans_run net page n) as (log & H & _).
  unfold scan_page, scan_items.
  rewrite (bind_ok _ _ n n tt [scanning_line page]) by reflexivity.
  rewrite (bind_ok _ _ n (S n) _ _ H). rewrite H. cbn [events].
  destruct (py_iter (fetch_result net page n)) as [items | e]; cbn [rbind].
  - rewrite (bind_ok _ _ (S n) (S n) items []) by reflexivity.
    destruct (rfold scan_loan items youth) as [youth' | e] eqn:E.
    + rewrite (bind_ok _ _ (S n) (S n) youth' [])
        by (rewrite for_each_lift, E; reflexivity).
      reflexivity.
    + rewrite (bind_raise _ _ (S n) (S n) e [])
        by (rewrite for_each_lift, E; reflexivity).
      cbn. rewrite !app_nil_r. reflexivity.
  - rewrite (bind_raise _ _ (S n) (S n) e []) by reflexivity.
    cbn. rewrite !app_nil_r. reflexivity.
Qed.

(** The driver's value is the inner loop folded over the fetch results
    of its pages. *)
Lemma pages_value (net : world) (pgs : list Z) :
  forall (youth : list pyval) (n : nat),
    value (for_each pgs (scan_page net) youth n)
    = rfold scan_items (fetch_results_from net pgs n) youth.
Proof.
  induction pgs as [ | p ps IH]; intros youth n; [reflexivity | ].
  cbn [for_each fetch_results_from rfold].
  destruct (scan_items (fetch_result net p n) youth) as [youth' | e] eqn:E;
    cbn [rbind].
  - erewrite bind_ok by (rewrite scan_page_run, E; reflexivity).
    cbn [value]. apply IH.
  - erewrite bind_raise by (rewrite scan_page_run, E; reflexivity).
    reflexivity.
Qed.

(** When the driver runs to its end it has posted once per page, in
    order, and paused after each page. *)
Lemma pages_schedule (net : world) (pgs : list Z) :
  forall (youth : list pyval) (n : nat) (out : list pyval),
    value (for_each pgs (scan_page net) youth n) = Ok out ->
    schedule (events (for_each pgs (scan_page net) youth n))
    = flat_map (fun p => [EvPost (loans_request p 20); pause]) pgs.
Proof.
  induction pgs as [ | p ps IH]; intros youth n out; [reflexivity | ].
  cbn [for_each flat_map].
  destruct (scan_items (fetch_result net p n) youth) as [youth' | e] eqn:E.
  - erewrite bind_ok by (rewrite scan_page_run, E; reflexivity).
    cbn [value events]. intros H.
    change (scanning_line p :: ?l) with ([scanning_line p] ++ l).
    rewrite !schedule_app, fetch_loans_schedule, (IH _ _ _ H).
    reflexivity.
  - erewrite bind_raise by (rewrite scan_page_run, E; reflexivity).
    cbn [value]. discriminate.
Qed.





(* ------------------------------------------------------------------ *)
(** ** Strings in the log *)

Lemma prefix_refl (s : string) : String.prefix s s = true.
Proof.
  induction s as [ | a s IH]; [reflexivity | ].
  cbn [String.prefix]. destruct (ascii_dec a a); [exact IH | contradiction].
Qed.

Lemma substringb_refl (s : string) : substringb s s = true.
Proof. destruct s; cbn [substringb]; now rewrite prefix_refl. Qed.

Lemma substringb_app (p s : string) : substringb s (p ++ s)%string = true.
Proof.
  induction p as [ | a p IH].
  - apply substringb_refl.
  - change (String a p ++ s)%string with (String a (p ++ s)%string).
    cbn [substringb]. rewrite IH. apply orb_true_r.
Qed.

(* ------------------------------------------------------------------ *)
(** ** The youth filter *)

(** C1.  A record of the data model (an object that carries [id] and
    [name]) makes the inner loop of [get_youth_loans] append a YouthLoan
    if and only if its [__typename] is [LoanDirect] and its
    [ageAtTimeOfLoan] is present and within [18, 26]; the entry then is
    the projection of the record.  In particular age 18 is kept; ages 17
    and 27, a null age and an absent age are skipped; and a record of
    another kind is skipped whatever its age field holds. *)
Theorem youth_loan_iff (d : list (string * pyval)) (youth : list pyval)
    (Hid : dict_has "id" d = true) (Hname : dict_has "name" d = true) :
  ((exists y, scan_loan (PDict d) youth = Ok (youth ++ [y]))
   <-> is_loan_direct (PDict d) = true /\ has_youth_age (PDict d) = true)
  /\ (is_youth (PDict d) = true ->
      scan_loan (PDict d) youth = Ok (youth ++ [youth_of (PDict d)]))
  /\ (is_loan_direct (PDict d) = true ->
      dict_get "ageAtTimeOfLoan" d = Some (PInt 18) ->
      scan_loan (PDict d) youth = Ok (youth ++ [youth_of (PDict d)]))
  /\ (dict_has "__typename" d = true ->
      dict_get "ageAtTimeOfLoan" d = Some (PInt 17)
      \/ dict_get "ageAtTimeOfLoan" d = Some (PInt 27)
      \/ dict_get "ageAtTimeOfLoan" d = Some PNone
      \/ dict_get "ageAtTimeOfLoan" d = None ->
      scan_loan (PDict d) youth = Ok youth)
  /\ (dict_has "__typename" d = true ->
      is_loan_direct (PDict d) = false ->
      scan_loan (PDict d) youth = Ok youth).
Proof.
  unfold dict_has in Hid, Hname.
  destruct (dict_get "id" d) as [i | ] eqn:Ei; [ | discriminate].
  destruct (dict_get "name" d) as [nm | ] eqn:En; [ | discriminate].
  assert (Hyes : is_youth (PDict d) = true ->
                 scan_loan (PDict d) youth = Ok (youth ++ [youth_of (PDict d)])).
  { unfold is_youth, is_loan_direct, has_youth_age, scan_loan, youth_of, field.
    cbn [py_getitem py_get rbind].
    destruct (dict_get "__typename" d) as [t | ]; [ | discriminate].
    cbn [rbind]. destruct (py_eq_str t "LoanDirect"); [ | discriminate].
    destruct (dict_get "ageAtTimeOfLoan" d) as [a | ]; [ | discriminate].
    cbn [andb rbind]. intros Ha. rewrite (in_range_test a Ha). cbn [rbind].
    rewrite Ei, En. reflexivity. }
  assert (Hskip : forall a,
             dict_has "__typename" d = true ->
             match dict_get "ageAtTimeOfLoan" d with
             | Some x => x
             | None => PNone
             end = a ->
             youth_test a = Ok false ->
             scan_loan (PDict d) youth = Ok youth).
  { intros a Ht Ha Hk. unfold dict_has in Ht. unfold scan_loan.
    cbn [py_getitem py_get rbind].
    destruct (dict_get "__typename" d) as [t | ]; [ | discriminate].
    cbn [rbind]. destruct (py_eq_str t "LoanDirect"); [ | reflexivity].
    destruct (dict_get "ageAtTimeOfLoan" d) as [x | ]; subst a; cbn [rbind];
      rewrite Hk; reflexivity. }
  split; [split | split; [ | split; [ | split]]].
  - intros [y Hy]. revert Hy. unfold scan_loan, is_loan_direct, has_youth_age.
    cbn [py_getitem py_get rbind].
    destruct (dict_get "__typename" d) as [t | ]; [ | discriminate].
    cbn [rbind]. destruct (py_eq_str t "LoanDirect").
    2:{ intros H. injection H as H. symmetry in H. now apply snoc_neq in H. }
    assert (Hage : forall a,
               (keep <-- youth_test a ;
                if keep
                then id <-- py_getitem (PDict d) "id" ;
                     name <-- py_getitem (PDict d) "name" ;
                     Ok (youth ++ [PDict [("id"%string, id); ("name"%string, name);
                                          ("age"%string, a)]])
                else Ok youth) = Ok (youth ++ [y]) ->
               in_range a = true).
    { intros a. destruct (youth_test a) as [[ | ] | e] eqn:Ea; cbn [rbind].
      - intros _. now apply youth_test_true.
      - intros H. injection H as H. symmetry in H. now apply snoc_neq in H.
      - discriminate. }
    destruct (dict_get "ageAtTimeOfLoan" d) as [a | ]; cbn [rbind]; intros H.
    + auto.
    + apply Hage in H. discriminate.
  - intros [H1 H2]. exists (youth_of (PDict d)). apply Hyes.
    unfold is_youth. now rewrite H1, H2.
  - exact Hyes.
  - intros Hk Ha. apply Hyes. unfold is_youth. rewrite Hk.
    unfold has_youth_age. rewrite Ha. reflexivity.
  - intros Ht [Ha | [Ha | [Ha | Ha]]].
    + apply (Hskip (PInt 17) Ht); [now rewrite Ha | reflexivity].
    + apply (Hskip (PInt 27) Ht); [now rewrite Ha | reflexivity].
    + apply (Hskip PNone Ht); [now rewrite Ha | reflexivity].
    + apply (Hskip PNone Ht); [now rewrite Ha | reflexivity].
  - intros Ht. unfold dict_has in Ht. unfold is_loan_direct, scan_loan.
    cbn [py_getitem rbind].
    destruct (dict_get "__typename" d) as [t | ]; [ | discriminate].
    cbn [rbind]. intros ->. reflexivity.
Qed.

(** The record L1 of the specification's example passes the filter. *)
Lemma youth_loan_iff_L1 :
  ((exists y, scan_loan loan_L1 [] = Ok ([] ++ [y]))
   <-> is_loan_direct loan_L1 = true /\ has_youth_age loan_L1 = true)
  /\ scan_loan loan_L1 []
     = Ok [PDict [("id", PStr "L1"); ("name", PStr "A"); ("age", PInt 22)]%string].
Proof.
  destruct (youth_loan_iff
              [("__typename", PStr "LoanDirect"); ("id", PStr "L1");
               ("name", PStr "A"); ("ageAtTimeOfLoan", PInt 22)]%string
              [] eq_refl eq_refl) as (H1 & H2 & _).
  split; [exact H1 | exact (H2 eq_refl)].
Defined.

Example youth_age_18 : scan_loan (loan_direct (PInt 18)) [] = Ok [youth_of (loan_direct (PInt 18))].
Proof. reflexivity. Qed.

Example youth_age_26 : scan_loan (loan_direct (PInt 26)) [] = Ok [youth_of (loan_direct (PInt 26))].
Proof. reflexivity. Qed.

Example youth_age_17 : scan_loan (loan_direct (PInt 17)) [] = Ok [].
Proof. reflexivity. Qed.

Example youth_age_27 : scan_loan (loan_direct (PInt 27)) [] = Ok [].
Proof. reflexivity. Qed.

Example youth_age_null : scan_loan (loan_direct PNone) [] = Ok [].
Proof. reflexivity. Qed.

Example youth_age_float : scan_loan (loan_direct (PFloat 22.5%float)) []
                          = Ok [youth_of (loan_direct (PFloat 22.5%float))].
Proof. reflexivity. Qed.

Example youth_other_kind : scan_loan loan_L2 [] = Ok [].
Proof. reflexivity. Qed.

(* ------------------------------------------------------------------ *)
(** ** The fetcher *)

Lemma logs_text_here (s t : string) (es es' : list event) :
  substringb s t = true -> logs_text s (es ++ EvPrint [[Lit t]] :: es').
Proof.
  intros H. exists [[Lit t]], [Lit t], t. repeat split.
  - apply in_or_app. right. now left.
  - now left.
  - now left.
  - exact H.
Qed.

(** C2.  A response whose status is not 200 makes [fetch_loans] return
    the empty list and print the status: for 403 the block notice
    (which names the status) and nothing else, for any other status the
    line [STATUS: <code>] and the raw body.  The call posts once: there
    is no second attempt and no pause. *)
Theorem fetch_non_200 (net : world) (page per_page : Z) (n : nat)
    (resp : response)
    (Hpost : net n (loans_request page per_page) = Ok resp)
    (Hstatus : status_code resp <> 200) :
  value (fetch_loans net page per_page n) = Ok (PList [])
  /\ logs_text (str_of_int (status_code resp))
       (events (fetch_loans net page per_page n))
  /\ schedule (events (fetch_loans net page per_page n))
     = [EvPost (loans_request page per_page)]
  /\ posts (fetch_loans net page per_page n) = S n
  /\ (status_code resp = 403 ->
      events (fetch_loans net page per_page n)
      = [EvPost (loans_request page per_page);
         EvPrint [[Lit blocked_notice]]])
  /\ (status_code resp <> 403 ->
      events (fetch_loans net page per_page n)
      = [EvPost (loans_request page per_page);
         EvPrint [[Lit ("STATUS: " ++ str_of_int (status_code resp))%string]];
         EvPrint [[Lit (text resp)]]]).
Proof.
  destruct (Z.eq_dec (status_code resp) 403) as [E | E].
  - rewrite (fetch_403 net page per_page n resp Hpost E). cbn [value posts events].
    repeat split; try reflexivity; try contradiction.
    rewrite E.
    apply (logs_text_here _ blocked_notice [EvPost (loans_request page per_page)] []).
    reflexivity.
  - rewrite (fetch_other_status net page per_page n resp Hpost E Hstatus).
    cbn [value posts events].
    repeat split; try reflexivity; try contradiction.
    apply (logs_text_here _ _ [EvPost (loans_request page per_page)]
             [EvPrint [[Lit (text resp)]]]).
    apply substringb_app.
Qed.

(** A 403 answer. *)
Lemma fetch_non_200_blocked :
  value (fetch_loans (const_world (Ok blocked_response)) 1 20 0%nat) = Ok (PList [])
  /\ events (fetch_loans (const_world (Ok blocked_response)) 1 20 0%nat)
     = [EvPost (loans_request 1 20); EvPrint [[Lit blocked_notice]]].
Proof.
  destruct (fetch_non_200 (const_world (Ok blocked_response)) 1 20 0%nat
              blocked_response eq_refl ltac:(discriminate))
    as (Hv & _ & _ & _ & Hb & _).
  split; [exact Hv | exact (Hb eq_refl)].
Defined.






(** A body without [fundraisingLoans]. *)
Example fetch_missing_field :
  fetch_loans
    (const_world
       (Ok {| status_code := 200; text := EmptyString;
              json := Ok (PDict [("data"%string, PDict [])]) |})) 2 20 5%nat
  = Run (Ok (PList [])) 6%nat
      [EvPost (loans_request 2 20); failed_line (KeyError "fundraisingLoans")].
Proof. reflexivity. Qed.

(** C5.  A 200 response whose body is an object without [errors] makes
    [fetch_loans] return what it finds under data / fundraisingLoans /
    values, as it is, and print nothing. *)
Theorem fetch_success (net : world) (page per_page : Z) (n : nat)
    (resp : response) (d : list (string * pyval)) (values : pyval)
    (Hpost : net n (loans_request page per_page) = Ok resp)
    (Hstatus : status_code resp = 200)
    (Hjson : json resp = Ok (PDict d))
    (Herrs : dict_get "errors" d = None)
    (Hvalues : loan_values (PDict d) = Ok values) :
  fetch_loans net page per_page n
  = Run (Ok values) (S n) [EvPost (loans_request page per_page)].
Proof.
  rewrite (fetch_no_errors net page per_page n resp (PDict d) Hpost Hstatus Hjson).
  - now rewrite Hvalues.
  - cbn [py_in]. unfold dict_has. now rewrite Herrs.
Qed.

Lemma fetch_success_page :
  fetch_loans (one_page_world (PList [loan_L1; loan_L2])) 1 20 0%nat
  = Run (Ok (PList [loan_L1; loan_L2])) 1%nat [EvPost (loans_request 1 20)].
Proof.
  exact (fetch_success (one_page_world (PList [loan_L1; loan_L2])) 1 20 0%nat
           (page_response (PList [loan_L1; loan_L2])) _ _
           eq_refl eq_refl eq_refl eq_refl eq_refl).
Defined.

(* ------------------------------------------------------------------ *)
(** ** The driver *)

Lemma driver_value (net : world) (pages : Z) (n : nat) :
  value (get_youth_loans net pages n)
  = rfold scan_items (fetch_results net pages n) [].
Proof. apply pages_value. Qed.

(** On pages of the data model the driver runs to its end. *)
Lemma driver_value_records (net : world) (pages : Z) (n : nat) :
  forallb loan_page (fetch_results net pages n) = true ->
  value (get_youth_loans net pages n)
  = Ok (map youth_of
          (filter is_youth (concat (map page_items (fetch_results net pages n))))).
Proof.
  intros H. rewrite driver_value, (rfold_scan_pages _ [] H). reflexivity.
Qed.

Lemma fetch_results_from_seq (net : world) (f : nat -> Z) (len : nat) :
  forall (a n : nat),
    fetch_results_from net (map f (seq a len)) n
    = map (fun i => fetch_result net (f (a + i)%nat) (n + i)) (seq 0 len).
Proof.
  induction len as [ | len IH]; intros a n; [reflexivity | ].
  cbn [seq map fetch_results_from]. rewrite !Nat.add_0_r. f_equal.
  rewrite IH, <- seq_shift, map_map.
  apply map_ext. intros i. now rewrite !Nat.add_succ_r.
Qed.

(** The fetch results of a run: page k is fetched by the k-th POST. *)
Lemma fetch_results_pages (net : world) (pages : Z) (n : nat) :
  fetch_results net pages n
  = map (fun i => fetch_result net (1 + Z.of_nat i) (n + i))
      (seq 0 (Z.to_nat pages)).
Proof.
  unfold fetch_results, py_range.
  replace (pages + 1 - 1) with pages by lia.
  rewrite fetch_results_from_seq. reflexivity.
Qed.


(** C6, amended.  A run of the driver on three pages that ends with a
    result has posted exactly three times, for the pages 1, 2 and 3 in
    this order, and has paused 1.5 after each of the three fetches, the
    last one included; it has posted and paused at no other time.  On
    pages of the data model the run does end with a result. *)
Theorem three_pages_fetches (net : world) (n : nat) :
  (forall out,
      value (get_youth_loans net 3 n) = Ok out ->
      schedule (events (get_youth_loans net 3 n))
      = [EvPost (loans_request 1 20); EvSleep 1.5%float;
         EvPost (loans_request 2 20); EvSleep 1.5%float;
         EvPost (loans_request 3 20); EvSleep 1.5%float])
  /\ (forallb loan_page (fetch_results net 3 n) = true ->
      exists out, value (get_youth_loans net 3 n) = Ok out).
Proof.
  split.
  - intros out Hv. unfold get_youth_loans in *.
    rewrite (pages_schedule net _ _ _ _ Hv). reflexivity.
  - intros Hpages. eexists. exact (driver_value_records net 3 n Hpages).
Qed.

Lemma three_pages_fetches_timeouts :
  schedule (events (get_youth_loans (const_world (Raise Timeout)) 3 0%nat))
  = three_pages_schedule.
Proof.
  destruct (three_pages_fetches (const_world (Raise Timeout)) 0%nat) as [Hs Hv].
  destruct (Hv eq_refl) as [out Hout].
  exact (Hs out Hout).
Defined.

(** The run of three pages pauses after the last fetch as well, and a
    record that stops the inner loop ends the run after the first
    fetch. *)
Lemma three_pages_not_between :
  schedule (events (get_youth_loans (const_world (Raise Timeout)) 3 0%nat))
  = three_pages_schedule
  /\ three_pages_schedule <> pauses_between_pages
  /\ schedule (events (get_youth_loans
                         (one_page_world (PList [loan_no_kind])) 3 0%nat))
     = [EvPost (loans_request 1 20)].
Proof.
  split; [reflexivity | split; [ | reflexivity]].
  intros H. apply (f_equal (@length event)) in H. discriminate.
Qed.

(** C7.  When the fetch of page 1 returns the two records of the
    example, the driver run on that page returns the one YouthLoan
    [{id: L1, name: A, age: 22}]; so does the run of three pages when
    the two other fetches return nothing. *)
Theorem example_page (net : world) (n : nat)
    (Hpage : fetch_result net 1 n = PList [loan_L1; loan_L2]) :
  value (get_youth_loans net 1 n) = Ok [youth_L1]
  /\ (fetch_result net 2 (S n) = PList [] ->
      fetch_result net 3 (S (S n)) = PList [] ->
      value (get_youth_loans net 3 n) = Ok [youth_L1]).
Proof.
  split.
  - rewrite driver_value. unfold fetch_results.
    change (py_range 1 (1 + 1)) with [1].
    cbn [fetch_results_from rfold]. rewrite Hpage. reflexivity.
  - intros H2 H3. rewrite driver_value. unfold fetch_results.
    change (py_range 1 (3 + 1)) with [1; 2; 3].
    cbn [fetch_results_from rfold]. rewrite Hpage, H2, H3. reflexivity.
Qed.

Lemma example_page_run :
  value (get_youth_loans (one_page_world (PList [loan_L1; loan_L2])) 1 0%nat)
  = Ok [youth_L1]
  /\ value (get_youth_loans (one_page_world (PList [loan_L1; loan_L2])) 3 0%nat)
     = Ok [youth_L1].
Proof.
  destruct (example_page (one_page_world (PList [loan_L1; loan_L2])) 0%nat eq_refl)
    as [H1 H3].
  split; [exact H1 | exact (H3 eq_refl eq_refl)].
Defined.

(** C10.  For every page count and whatever the fetches of the pages
    1 to N return, the list the driver returns is the projection
    (id, name, age) of the records that pass the youth filter, taken
    from the concatenation of the fetch results in page order: same
    order, nothing merged, nothing left out, the three fields copied.
    On pages of the data model the driver does return. *)
Theorem driver_is_filter (net : world) (pages : Z) (n : nat) :
  (forall out,
      value (get_youth_loans net pages n) = Ok out ->
      out = map youth_of
              (filter is_youth
                 (concat (map page_items (fetch_results net pages n)))))
  /\ (forallb loan_page (fetch_results net pages n) = true ->
      value (get_youth_loans net pages n)
      = Ok (map youth_of
              (filter is_youth
                 (concat (map page_items (fetch_results net pages n))))))
  /\ fetch_results net pages n
     = map (fun i => fetch_result net (1 + Z.of_nat i) (n + i))
         (seq 0 (Z.to_nat pages)).
Proof.
  split; [ | split].
  - intros out H. rewrite driver_value in H.
    now apply rfold_scan_pages_ok in H.
  - apply driver_value_records.
  - apply fetch_results_pages.
Qed.

Lemma driver_is_filter_run :
  value (get_youth_loans (one_page_world (PList [loan_L2; loan_L1; loan_L1])) 3 0%nat)
  = Ok [youth_L1; youth_L1].
Proof.
  exact (proj1 (proj2 (driver_is_filter
                  (one_page_world (PList [loan_L2; loan_L1; loan_L1])) 3 0%nat))
           eq_refl).
Defined.

(* ------------------------------------------------------------------ *)
(** ** The diagnostic path *)






Example main_prints_L1 :
  events (main (one_page_world (PList [loan_L1; loan_L2])) 0%nat)
  = [page_line 1; EvPost (loans_request 1 20);
     EvPrint [[Lit "LoanDirect | ID: "; StrOf (PStr "L1");
               Lit " | Name: "; StrOf (PStr "A");
               Lit " | Age: "; StrOf (PInt 22)]];
     page_line 2; EvPost (loans_request 2 20); failed_line Timeout;
     page_line 3; EvPost (loans_request 3 20); failed_line Timeout].
Proof. reflexivity. Qed.

(* ------------------------------------------------------------------ *)
(** ** Records that stop the driver *)

Lemma rfold_app {A S} (f : A -> S -> result S) (xs ys : list A) :
  forall acc,
    rfold f (xs ++ ys) acc = (acc' <-- rfold f xs acc ; rfold f ys acc').
Proof.
  induction xs as [ | x xs IH]; intros acc; [reflexivity | ].
  cbn [app rfold]. destruct (f x acc) as [acc' | e]; cbn [rbind]; auto.
Qed.

(** A loop raises as soon as one of its items makes the body raise,
    unless it raised before. *)
Lemma rfold_raises {A S} (f : A -> S -> result S) (xs : list A) (x : A) :
  In x xs ->
  (forall acc, exists e, f x acc = Raise e) ->
  forall acc, exists e, rfold f xs acc = Raise e.
Proof.
  intros Hin Hx. induction xs as [ | y ys IH]; [contradiction | ].
  intros acc. cbn [rfold].
  destruct Hin as [-> | Hin].
  - destruct (Hx acc) as [e He]. rewrite He. now exists e.
  - destruct (f y acc) as [acc' | e]; cbn [rbind]; [now apply IH | now exists e].
Qed.

(** The lookup that [missing_key] names raises, whatever was
    accumulated. *)
Lemma scan_loan_missing_key (d : list (string * pyval)) (k : string) :
  missing_key d = Some k ->
  forall youth, scan_loan (PDict d) youth = Raise (KeyError k).
Proof.
  unfold missing_key, is_youth, is_loan_direct, has_youth_age, dict_has, scan_loan.
  cbn [py_getitem py_get rbind].
  destruct (dict_get "__typename" d) as [t | ]; cbn [negb rbind].
  2:{ intros H youth. now injection H as <-. }
  destruct (py_eq_str t "LoanDirect"); cbn [andb]; [ | discriminate].
  destruct (dict_get "ageAtTimeOfLoan" d) as [a | ]; [ | discriminate].
  destruct (in_range a) eqn:Ea; [ | discriminate].
  cbn [rbind]. rewrite (in_range_test a Ea). cbn [rbind].
  destruct (dict_get "id" d) as [i | ]; cbn [negb rbind].
  2:{ intros H youth. now injection H as <-. }
  destruct (dict_get "name" d) as [nm | ]; cbn [negb rbind]; [discriminate | ].
  intros H youth. now injection H as <-.
Qed.

Lemma rfold_skip {A S} (f : A -> S -> result S) (xs ys : list A) (x : A) :
  (forall acc, f x acc = Ok acc) ->
  forall acc, rfold f (xs ++ x :: ys) acc = rfold f (xs ++ ys) acc.
Proof.
  intros Hx acc. rewrite !rfold_app.
  destruct (rfold f xs acc) as [acc' | e]; cbn [rbind rfold]; [ | reflexivity].
  now rewrite Hx.
Qed.

Lemma rfold_replace {A S} (f : A -> S -> result S) (xs ys : list A) (x x' : A) :
  (forall acc, f x acc = f x' acc) ->
  forall acc, rfold f (xs ++ x :: ys) acc = rfold f (xs ++ x' :: ys) acc.
Proof.
  intros Hx acc. rewrite !rfold_app.
  destruct (rfold f xs acc) as [acc' | e]; cbn [rbind rfold]; [ | reflexivity].
  now rewrite Hx.
Qed.

(** A [LoanDirect] record whose age is absent, null or a number outside
    the interval is passed over: id and name are not looked up. *)
Lemma scan_loan_skip (d : list (string * pyval)) :
  is_loan_direct (PDict d) = true ->
  age_value (field "ageAtTimeOfLoan" (PDict d)) = true ->
  has_youth_age (PDict d) = false ->
  forall youth, scan_loan (PDict d) youth = Ok youth.
Proof.
  unfold is_loan_direct, has_youth_age, field, scan_loan.
  cbn [py_getitem py_get rbind].
  destruct (dict_get "__typename" d) as [t | ]; [ | discriminate].
  cbn [rbind]. intros Hkind Hnum Hage youth. rewrite Hkind.
  destruct (dict_get "ageAtTimeOfLoan" d) as [a | ]; cbn [rbind].
  - rewrite (youth_test_number a Hnum), Hage. reflexivity.
  - reflexivity.
Qed.

(** C9, amended.  Nothing in [get_youth_loans] catches an exception of
    the inner loop.  A fetched record without [__typename], or a
    [LoanDirect] record with an age in [18, 26] and without [id] or
    [name], ends the run with an exception and no result: the
    [KeyError] of that key when the pages and the records before it are
    of the data model.  A [LoanDirect] record whose age is absent, null
    or a number outside [18, 26] is skipped without [id] and [name]
    being read: the run goes on as if the record were not there,
    whether or not it carries them.  When every fetched page is a
    sequence of records that carry the three keys and whose age is
    absent, null or a number, the run ends with a result. *)
Theorem driver_uncaught (net : world) (pages : Z) (n : nat) :
  (forall before after pre post d k,
      fetch_results net pages n
      = before ++ PList (pre ++ PDict d :: post) :: after ->
      missing_key d = Some k ->
      (exists e, value (get_youth_loans net pages n) = Raise e)
      /\ (forallb loan_page before = true ->
          forallb loan_record pre = true ->
          value (get_youth_loans net pages n) = Raise (KeyError k)))
  /\ (forall before after pre post d,
         fetch_results net pages n
         = before ++ PList (pre ++ PDict d :: post) :: after ->
         is_loan_direct (PDict d) = true ->
         age_value (field "ageAtTimeOfLoan" (PDict d)) = true ->
         has_youth_age (PDict d) = false ->
         (forall youth, scan_loan (PDict d) youth = Ok youth)
         /\ value (get_youth_loans net pages n)
            = rfold scan_items (before ++ PList (pre ++ post) :: after) [])
  /\ (forallb loan_page (fetch_results net pages n) = true ->
      exists out, value (get_youth_loans net pages n) = Ok out).
Proof.
  split; [ | split].
  - intros before after pre post d k Hres Hk.
    pose proof (scan_loan_missing_key d k Hk) as Hraise.
    rewrite driver_value, Hres. split.
    + apply (rfold_raises scan_items _ (PList (pre ++ PDict d :: post))).
      * apply in_or_app. right. now left.
      * intros acc. unfold scan_items. cbn [py_iter rbind].
        apply (rfold_raises scan_loan _ (PDict d)).
        -- apply in_or_app. right. now left.
        -- intros acc'. exists (KeyError k). apply Hraise.
    + intros Hbefore Hpre.
      rewrite rfold_app, (rfold_scan_pages before [] Hbefore).
      cbn [rbind rfold]. unfold scan_items at 1. cbn [py_iter rbind].
      rewrite rfold_app, (rfold_scan_records pre _ Hpre).
      cbn [rbind rfold]. rewrite Hraise. reflexivity.
  - intros before after pre post d Hres Hkind Hnum Hage.
    pose proof (scan_loan_skip d Hkind Hnum Hage) as Hskip.
    split; [exact Hskip | ].
    rewrite driver_value, Hres.
    apply rfold_replace. intros acc. unfold scan_items.
    cbn [py_iter rbind]. now apply rfold_skip.
  - intros H. eexists. now apply driver_value_records.
Qed.

Lemma driver_uncaught_run :
  value (get_youth_loans (one_page_world (PList [loan_L1; loan_no_kind])) 3 0%nat)
  = Raise (KeyError "__typename"%string)
  /\ value (get_youth_loans
              (one_page_world (PList [loan_L1; loan_old_no_id; loan_L1])) 3 0%nat)
     = rfold scan_items [PList [loan_L1; loan_L1]; PList []; PList []] []
  /\ (exists out,
        value (get_youth_loans (one_page_world (PList [loan_L1; loan_L2])) 3 0%nat)
        = Ok out).
Proof.
  split; [ | split].
  - apply (proj1 (driver_uncaught
                    (one_page_world (PList [loan_L1; loan_no_kind])) 3 0%nat)
             [] [PList []; PList []] [loan_L1] []
             [("id", PStr "L9"); ("name", PStr "D")]%string "__typename"%string
             eq_refl eq_refl);
      reflexivity.
  - exact (proj2 (proj1 (proj2 (driver_uncaught
                    (one_page_world (PList [loan_L1; loan_old_no_id; loan_L1]))
                    3 0%nat))
             [] [PList []; PList []] [loan_L1] [loan_L1]
             [("__typename", PStr "LoanDirect"); ("name", PStr "E");
              ("ageAtTimeOfLoan", PInt 40)]%string
             eq_refl eq_refl eq_refl eq_refl)).
  - exact (proj2 (proj2 (driver_uncaught
                    (one_page_world (PList [loan_L1; loan_L2])) 3 0%nat))
             eq_refl).
Defined.

(** A [LoanDirect] record without id and without age does not stop the
    driver, and a record that carries every key stops it when its age
    is a string. *)
Lemma driver_keys_not_decisive :
  is_loan_direct loan_no_id = true
  /\ field "id" loan_no_id = PNone
  /\ value (get_youth_loans (one_page_world (PList [loan_no_id])) 1 0%nat) = Ok []
  /\ value (get_youth_loans
              (one_page_world (PList [loan_direct (PStr "22")])) 1 0%nat)
     = Raise TypeError.
Proof. repeat split. Qed.

(* ------------------------------------------------------------------ *)
(** ** More on the fetcher *)

(** X1.  A call of [fetch_loans] raises only while it builds its query:
    when the page and the page size can be printed (at most 4300
    digits each) the call never raises, whatever the world answers; it
    returns a value after exactly one POST, of the request built for
    that page and page size, and it never pauses.  When one of the two
    cannot be printed the call raises [ValueError] before the [try]
    block: nothing is posted and nothing is printed. *)
Theorem fetch_never_raises (net : world) (page per_page : Z) (n : nat) :
  (Z.abs page < 10 ^ int_max_str_digits ->
   Z.abs per_page < 10 ^ int_max_str_digits ->
   (exists v, value (fetch_loans_call net page per_page n) = Ok v)
   /\ posts (fetch_loans_call net page per_page n) = S n
   /\ schedule (events (fetch_loans_call net page per_page n))
      = [EvPost (loans_request page per_page)])
  /\ (10 ^ int_max_str_digits <= Z.abs page
      \/ 10 ^ int_max_str_digits <= Z.abs per_page ->
      fetch_loans_call net page per_page n = Run (Raise ValueError) n []).
Proof.
  unfold fetch_loans_call, format_int. split.
  - intros Hpage Hper. apply Z.ltb_lt in Hpage, Hper.
    rewrite Hpage, Hper.
    rewrite (bind_ok _ _ n n (str_of_int per_page) []) by reflexivity.
    rewrite (bind_ok _ _ n n (str_of_int page) []) by reflexivity.
    destruct (fetch_loans_total net page per_page n) as (v & log & H & Hlog).
    rewrite H. cbn [value posts events app]. split; [now exists v | ].
    split; [reflexivity | ].
    change (EvPost (loans_request page per_page) :: log)
      with ([EvPost (loans_request page per_page)] ++ log).
    now rewrite schedule_app, (schedule_prints log Hlog).
  - intros Hbig.
    destruct (Z.ltb_spec (Z.abs per_page) (10 ^ int_max_str_digits))
      as [Hper | Hper].
    + destruct Hbig as [Hpage | Hbig]; [ | lia].
      apply Z.ltb_ge in Hpage. rewrite Hpage.
      rewrite (bind_ok _ _ n n (str_of_int per_page) []) by reflexivity.
      cbn [value posts events app].
      now rewrite (bind_raise _ _ n n ValueError []) by reflexivity.
    + now rewrite (bind_raise _ _ n n ValueError []) by reflexivity.
Qed.

Lemma fetch_never_raises_page_1 :
  ((exists v, value (fetch_loans_call down_world 1 20 0%nat) = Ok v)
   /\ posts (fetch_loans_call down_world 1 20 0%nat) = 1%nat
   /\ schedule (events (fetch_loans_call down_world 1 20 0%nat))
      = [EvPost (loans_request 1 20)])
  /\ fetch_loans_call down_world (10 ^ 4300) 20 3%nat
     = Run (Raise ValueError) 3%nat [].
Proof.
  split.
  - apply (proj1 (fetch_never_raises down_world 1 20 0%nat));
      vm_compute; reflexivity.
  - apply (proj2 (fetch_never_raises down_world (10 ^ 4300) 20 3%nat)).
    left. vm_compute. discriminate.
Defined.

(** X2.  What [fetch_loans] returns is the empty list, or else the
    [values] of a response with status 200 whose parsed body passed the
    [errors] test: nothing of a response with another status, of a body
    with [errors], or of a failed call ever reaches the caller. *)
Theorem fetch_result_origin (net : world) (page per_page : Z) (n : nat)
    (v : pyval)
    (Hv : value (fetch_loans net page per_page n) = Ok v) :
  v = PList []
  \/ exists resp data,
       net n (loans_request page per_page) = Ok resp
       /\ status_code resp = 200
       /\ json resp = Ok data
       /\ py_in "errors" data = Ok false
       /\ loan_values data = Ok v.
Proof.
  revert Hv. run_fetch.
  destruct (net n (loans_request page per_page)) as [resp | e] eqn:Enet; cbn.
  2:{ intros H. injection H as <-. now left. }
  destruct (status_code resp =? 403) eqn:E403; cbn.
  { intros H. injection H as <-. now left. }
  destruct (Z.eqb_spec (status_code resp) 200) as [E200 | E200]; cbn.
  2:{ intros H. injection H as <-. now left. }
  destruct (json resp) as [data | e] eqn:Ejson; cbn.
  2:{ intros H. injection H as <-. now left. }
  destruct (py_in "errors" data) as [[ | ] | e] eqn:Ein; cbn.
  - destruct (py_getitem data "errors"); cbn;
      intros H; injection H as <-; now left.
  - destruct (loan_values data) as [w | e] eqn:Evals; cbn.
    + intros H. injection H as <-. right. exists resp, data. auto.
    + intros H. injection H as <-. now left.
  - intros H. injection H as <-. now left.
Qed.

Lemma fetch_result_origin_page :
  PList [loan_L1] = PList []
  \/ exists resp data,
       one_page_world (PList [loan_L1]) 0%nat (loans_request 1 20) = Ok resp
       /\ status_code resp = 200
       /\ json resp = Ok data
       /\ py_in "errors" data = Ok false
       /\ loan_values data = Ok (PList [loan_L1]).
Proof.
  exact (fetch_result_origin (one_page_world (PList [loan_L1])) 1 20 0%nat
           (PList [loan_L1]) eq_refl).
Defined.

(* ------------------------------------------------------------------ *)
(** ** More on the youth test *)

(** X3.  The test [age and 18 <= age <= 26] raises exactly when the age
    is truthy and no number, that is a non-empty string, list or dict;
    the exception then is [TypeError].  [None], numbers and empty
    containers are answered without raising, and an answer given is the
    interval test. *)
Theorem youth_test_raises_iff (a : pyval) :
  (youth_test a = Raise TypeError
   <-> py_truthy a = true /\ age_value a = false)
  /\ (forall e, youth_test a = Raise e -> e = TypeError)
  /\ (forall b, youth_test a = Ok b -> b = in_range a).
Proof.
  destruct (age_value a) eqn:Ea.
  - rewrite (youth_test_number a Ea). split; [split | split].
    + discriminate.
    + intros [_ H]. discriminate.
    + discriminate.
    + intros b H. now injection H.
  - destruct a as [ | b | z | f | s | l | d]; try discriminate;
      unfold youth_test, py_truthy; cbn [in_range].
    + destruct (String.eqb s EmptyString); cbn [negb int_le_py rbind].
      * split; [split | split]; try discriminate.
        -- intros [H _]. discriminate.
        -- intros b H. now injection H.
      * split; [split | split]; auto; try discriminate.
        intros e H. now injection H.
    + destruct l; cbn [int_le_py rbind].
      * split; [split | split]; try discriminate.
        -- intros [H _]. discriminate.
        -- intros b H. now injection H.
      * split; [split | split]; auto; try discriminate.
        intros e H. now injection H.
    + destruct d; cbn [int_le_py rbind].
      * split; [split | split]; try discriminate.
        -- intros [H _]. discriminate.
        -- intros b H. now injection H.
      * split; [split | split]; auto; try discriminate.
        intros e H. now injection H.
Qed.

Example youth_test_nan : youth_test (PFloat nan) = Ok false.
Proof. reflexivity. Qed.

Example youth_test_true_bool : youth_test (PBool true) = Ok false.
Proof. reflexivity. Qed.

Example youth_test_text : youth_test (PStr "22") = Raise TypeError.
Proof. reflexivity. Qed.

Example youth_test_empty_text : youth_test (PStr EmptyString) = Ok false.
Proof. reflexivity. Qed.

(* ------------------------------------------------------------------ *)
(** ** More on the driver *)

Lemma youth_entry_of (r : pyval) : is_youth r = true -> youth_entry (youth_of r) = true.
Proof.
  unfold is_youth, has_youth_age, youth_of, youth_entry, field.
  intros H. apply andb_true_iff in H as [_ H].
  destruct r as [ | | | | | | d]; try discriminate.
  destruct (dict_get "ageAtTimeOfLoan" d) as [a | ]; [ | discriminate].
  now rewrite H.
Qed.

Lemma youth_entries (l : list pyval) :
  forallb youth_entry (map youth_of (filter is_youth l)) = true.
Proof.
  induction l as [ | r l IH]; [reflexivity | ].
  cbn [filter]. destruct (is_youth r) eqn:E; [ | exact IH].
  cbn [map forallb]. now rewrite (youth_entry_of r E), IH.
Qed.

(** X4.  Whatever the world answers, every entry of a list the driver
    returns is an object with exactly the keys id, name and age, in
    this order, whose age is within [18, 26]; and the list is no longer
    than the fetched records are many. *)
Theorem driver_output_entries (net : world) (pages : Z) (n : nat)
    (out : list pyval)
    (Hout : value (get_youth_loans net pages n) = Ok out) :
  forallb youth_entry out = true
  /\ (length out
      <= length (concat (map page_items (fetch_results net pages n))))%nat.
Proof.
  rewrite driver_value in Hout. apply rfold_scan_pages_ok in Hout.
  cbn [app] in Hout. subst out. split.
  - apply youth_entries.
  - rewrite length_map. apply filter_length_le.
Qed.

Lemma driver_output_entries_run :
  forallb youth_entry [youth_L1] = true
  /\ (length [youth_L1]
      <= length (concat (map page_items
                           (fetch_results
                              (one_page_world (PList [loan_L1; loan_L2])) 3 0%nat))))%nat.
Proof.
  exact (driver_output_entries (one_page_world (PList [loan_L1; loan_L2])) 3
           0%nat [youth_L1] eq_refl).
Defined.

Lemma py_range_pages (pages : Z) :
  py_range 1 (pages + 1) = map Z.of_nat (seq 1 (Z.to_nat pages)).
Proof.
  unfold py_range. replace (pages + 1 - 1) with pages by lia.
  rewrite <- seq_shift, map_map. apply map_ext. intros i. lia.
Qed.

Lemma py_range_empty (pages : Z) : pages <= 0 -> py_range 1 (pages + 1) = [].
Proof.
  intros H. rewrite py_range_pages.
  replace (Z.to_nat pages) with 0%nat by lia. reflexivity.
Qed.

(** One turn of the page loop, then the rest of it. *)
Lemma pages_step (net : world) (p : Z) (ps : list Z) (youth : list pyval)
    (n : nat) :
  for_each (p :: ps) (scan_page net) youth n
  = match scan_items (fetch_result net p n) youth with
    | Ok youth' =>
        Run (value (for_each ps (scan_page net) youth' (S n)))
          (posts (for_each ps (scan_page net) youth' (S n)))
          ((scanning_line p :: events (fetch_loans net p 20 n) ++ [pause])
           ++ events (for_each ps (scan_page net) youth' (S n)))
    | Raise e =>
        Run (Raise e) (S n)
          (scanning_line p :: events (fetch_loans net p 20 n) ++ [])
    end.
Proof.
  cbn [for_each].
  destruct (scan_items (fetch_result net p n) youth) as [youth' | e] eqn:E.
  - erewrite bind_ok by (rewrite scan_page_run, E; reflexivity). reflexivity.
  - erewrite bind_raise by (rewrite scan_page_run, E; reflexivity). reflexivity.
Qed.

Lemma schedule_page_turn (net : world) (p : Z) (n : nat) (tail : list event) :
  schedule (scanning_line p :: events (fetch_loans net p 20 n) ++ tail)
  = EvPost (loans_request p 20) :: schedule tail.
Proof.
  change (scanning_line p :: ?l) with ([scanning_line p] ++ l).
  now rewrite !schedule_app, fetch_loans_schedule.
Qed.

Lemma pages_posts (net : world) (pgs : list Z) :
  forall (youth : list pyval) (n : nat) (out : list pyval),
    value (for_each pgs (scan_page net) youth n) = Ok out ->
    posts (for_each pgs (scan_page net) youth n) = (n + length pgs)%nat.
Proof.
  induction pgs as [ | p ps IH]; intros youth n out.
  - intros _. cbn. lia.
  - rewrite pages_step.
    destruct (scan_items (fetch_result net p n) youth) as [youth' | e];
      cbn [value posts]; [ | discriminate].
    intros H. rewrite (IH _ _ _ H). cbn [length]. lia.
Qed.

(** X5.  With a page count of zero or less neither path does anything:
    the driver returns the empty list and the diagnostic path returns,
    without a POST, a print or a pause. *)
Theorem no_pages_no_effect (net : world) (pages : Z) (n : nat)
    (Hpages : pages <= 0) :
  get_youth_loans net pages n = Run (Ok []) n []
  /\ debug_age_field net pages n = Run (Ok tt) n [].
Proof.
  unfold get_youth_loans, debug_age_field.
  rewrite (py_range_empty pages Hpages). split; reflexivity.
Qed.

Lemma no_pages_no_effect_negative :
  get_youth_loans down_world (-2) 7%nat = Run (Ok []) 7%nat []
  /\ debug_age_field down_world (-2) 7%nat = Run (Ok tt) 7%nat [].
Proof.
  exact (no_pages_no_effect down_world (-2) 7%nat ltac:(lia)).
Defined.

(** X6.  For every page count N, a run of the driver that ends with a
    result has posted exactly N times (once for each of the pages
    1, ..., N, in increasing order, always with page size 20) and has
    paused after every one of these fetches. *)
Theorem driver_schedule_all_pages (net : world) (pages : Z) (n : nat)
    (out : list pyval)
    (Hout : value (get_youth_loans net pages n) = Ok out) :
  schedule (events (get_youth_loans net pages n))
  = flat_map (fun i => [EvPost (loans_request (Z.of_nat i) 20);
                        EvSleep 1.5%float])
      (seq 1 (Z.to_nat pages))
  /\ posts (get_youth_loans net pages n) = (n + Z.to_nat pages)%nat.
Proof.
  unfold get_youth_loans in *. split.
  - rewrite (pages_schedule net _ _ _ _ Hout), py_range_pages.
    rewrite flat_map_concat_map, map_map, <- flat_map_concat_map.
    reflexivity.
  - rewrite (pages_posts net _ _ _ _ Hout), py_range_pages.
    now rewrite length_map, length_seq.
Qed.

Lemma driver_schedule_all_pages_run :
  schedule (events (get_youth_loans down_world 4 0%nat))
  = flat_map (fun i => [EvPost (loans_request (Z.of_nat i) 20);
                        EvSleep 1.5%float])
      (seq 1 4)
  /\ posts (get_youth_loans down_world 4 0%nat) = 4%nat.
Proof.
  exact (driver_schedule_all_pages down_world 4 0%nat [] eq_refl).
Defined.

Lemma pages_abort (net : world) (before after : list Z) (p : Z)
    (e : exn) :
  forall (youth : list pyval) (n : nat),
    forallb loan_page (fetch_results_from net before n) = true ->
    (forall acc,
        scan_items (fetch_result net p (n + length before)) acc = Raise e) ->
    for_each (before ++ p :: after) (scan_page net) youth n
    = Run (Raise e) (n + length before + 1)
        (events (for_each (before ++ p :: after) (scan_page net) youth n))
    /\ schedule (events (for_each (before ++ p :: after) (scan_page net) youth n))
       = page_schedule before ++ [EvPost (loans_request p 20)].
Proof.
  induction before as [ | q qs IH]; intros youth n Hbefore Hp.
  - cbn [app length] in *. rewrite Nat.add_0_r in Hp.
    rewrite pages_step, (Hp youth). cbn [events page_schedule flat_map app].
    split.
    + f_equal. lia.
    + now rewrite schedule_page_turn.
  - cbn [fetch_results_from forallb] in Hbefore.
    apply andb_true_iff in Hbefore as [Hq Hqs].
    cbn [app]. rewrite pages_step, (scan_items_page _ youth Hq).
    cbn [length] in Hp.
    assert (Hp' : forall acc,
               scan_items (fetch_result net p (S n + length qs)) acc = Raise e).
    { intros acc. rewrite <- (Hp acc). f_equal. f_equal. lia. }
    destruct (IH (youth ++ map youth_of
                    (filter is_youth (page_items (fetch_result net q n))))
                (S n) Hqs Hp') as [Hrun Hsched].
    cbn [events]. split.
    + rewrite Hrun at 1 2. cbn [value posts length]. f_equal. lia.
    + rewrite schedule_app, schedule_page_turn, Hsched. reflexivity.
Qed.

(** X7.  When the inner loop raises on a page, the run of the driver
    ends there with that exception: it has posted for the pages up to
    that one and paused after each page before it, the page itself is
    not followed by a pause, and no later page is fetched. *)
Theorem driver_abort_shape (net : world) (pages : Z) (n : nat)
    (before after : list Z) (p : Z) (e : exn)
    (Hsplit : py_range 1 (pages + 1) = before ++ p :: after)
    (Hbefore : forallb loan_page (fetch_results_from net before n) = true)
    (Hp : forall acc,
        scan_items (fetch_result net p (n + length before)) acc = Raise e) :
  value (get_youth_loans net pages n) = Raise e
  /\ posts (get_youth_loans net pages n) = (n + length before + 1)%nat
  /\ schedule (events (get_youth_loans net pages n))
     = page_schedule before ++ [EvPost (loans_request p 20)].
Proof.
  unfold get_youth_loans. rewrite Hsplit.
  destruct (pages_abort net before after p e [] n Hbefore Hp) as [Hrun Hs].
  rewrite Hs. rewrite Hrun. cbn [value posts]. auto.
Qed.

Lemma driver_abort_shape_run :
  value (get_youth_loans
           (two_page_world (PList [loan_L1]) (PList [loan_no_kind])) 3 0%nat)
  = Raise (KeyError "__typename"%string)
  /\ posts (get_youth_loans
              (two_page_world (PList [loan_L1]) (PList [loan_no_kind])) 3 0%nat)
     = 2%nat
  /\ schedule (events (get_youth_loans
                         (two_page_world (PList [loan_L1]) (PList [loan_no_kind]))
                         3 0%nat))
     = [EvPost (loans_request 1 20); pause; EvPost (loans_request 2 20)].
Proof.
  exact (driver_abort_shape
           (two_page_world (PList [loan_L1]) (PList [loan_no_kind])) 3 0%nat
           [1] [3] 2 (KeyError "__typename"%string) eq_refl eq_refl
           (fun acc => eq_refl)).
Defined.

Lemma flat_map_of_map {A B C} (g : B -> list C) (h : A -> B) (l : list A) :
  flat_map g (map h l) = flat_map (fun x => g (h x)) l.
Proof.
  induction l as [ | x l IH]; [reflexivity | ]. cbn. now rewrite IH.
Qed.

Lemma pages_schedule_prefix (net : world) (pgs : list Z) :
  forall (youth : list pyval) (n : nat),
    exists rest,
      page_schedule pgs
      = schedule (events (for_each pgs (scan_page net) youth n)) ++ rest.
Proof.
  induction pgs as [ | p ps IH]; intros youth n.
  - exists []. reflexivity.
  - rewrite pages_step.
    destruct (scan_items (fetch_result net p n) youth) as [youth' | e];
      cbn [events].
    + destruct (IH youth' (S n)) as [rest Hrest]. exists rest.
      rewrite schedule_app, schedule_page_turn.
      change (page_schedule (p :: ps))
        with (EvPost (loans_request p 20) :: pause :: page_schedule ps).
      rewrite Hrest. reflexivity.
    + exists (pause :: page_schedule ps).
      rewrite schedule_page_turn. reflexivity.
Qed.

Lemma pages_posts_bounds (net : world) (pgs : list Z) :
  forall (youth : list pyval) (n : nat),
    (n <= posts (for_each pgs (scan_page net) youth n) <= n + length pgs)%nat.
Proof.
  induction pgs as [ | p ps IH]; intros youth n.
  - cbn. lia.
  - rewrite pages_step.
    destruct (scan_items (fetch_result net p n) youth) as [youth' | e];
      cbn [posts length].
    + specialize (IH youth' (S n)). lia.
    + lia.
Qed.

(** X8.  Whether a run of the driver ends with a result or with an
    exception, what it has posted and paused is an initial part of
    POST 1, pause, POST 2, pause, ..., POST N, pause: it never fetches
    a page twice, out of order or beyond N, never with a page size
    other than 20, never pauses but after a fetch, and has made at most
    N POSTs. *)
Theorem driver_schedule_prefix (net : world) (pages : Z) (n : nat) :
  (exists rest,
      flat_map (fun i => [EvPost (loans_request (Z.of_nat i) 20);
                          EvSleep 1.5%float])
        (seq 1 (Z.to_nat pages))
      = schedule (events (get_youth_loans net pages n)) ++ rest)
  /\ (n <= posts (get_youth_loans net pages n) <= n + Z.to_nat pages)%nat.
Proof.
  unfold get_youth_loans. split.
  - destruct (pages_schedule_prefix net (py_range 1 (pages + 1)) [] n)
      as [rest Hrest].
    exists rest. rewrite <- Hrest, py_range_pages. unfold page_schedule.
    now rewrite flat_map_of_map.
  - pose proof (pages_posts_bounds net (py_range 1 (pages + 1)) [] n) as H.
    rewrite py_range_pages, length_map, length_seq in H.
    now rewrite py_range_pages.
Qed.

Lemma fetch_result_no_page (net : world) (page : Z) (n : nat) :
  no_page (net n (loans_request page 20)) = true ->
  fetch_result net page n = PList [].
Proof.
  unfold fetch_result, no_page.
  destruct (net n (loans_request page 20)) as [resp | e] eqn:E.
  - intros H. apply negb_true_iff in H. apply Z.eqb_neq in H.
    destruct (Z.eq_dec (status_code resp) 403) as [B | B].
    + now rewrite (fetch_403 net page 20 n resp E B).
    + now rewrite (fetch_other_status net page 20 n resp E B H).
  - intros _. now rewrite (fetch_post_raises net page 20 n e E).
Qed.

Lemma rfold_empty_pages (net : world) (pgs : list Z) :
  forall n,
    (forall i rq, no_page (net i rq) = true) ->
    rfold scan_items (fetch_results_from net pgs n) [] = Ok [].
Proof.
  induction pgs as [ | p ps IH]; intros n H; [reflexivity | ].
  cbn [fetch_results_from rfold].
  rewrite (fetch_result_no_page net p n (H _ _)). cbn. now apply IH.
Qed.

(** X9.  When every POST raises or is answered with a status other
    than 200, the driver still visits every page and then returns the
    empty list as an ordinary result: a service that is down cannot be
    told from one that has no youth loans. *)
Theorem driver_all_refused (net : world) (pages : Z) (n : nat)
    (Hdown : forall i rq, no_page (net i rq) = true) :
  value (get_youth_loans net pages n) = Ok []
  /\ posts (get_youth_loans net pages n) = (n + Z.to_nat pages)%nat
  /\ schedule (events (get_youth_loans net pages n))
     = page_schedule (py_range 1 (pages + 1)).
Proof.
  assert (Hv : value (get_youth_loans net pages n) = Ok []).
  { rewrite driver_value. now apply rfold_empty_pages. }
  split; [exact Hv | ]. unfold get_youth_loans in *. split.
  - rewrite (pages_posts net _ _ _ _ Hv), py_range_pages.
    now rewrite length_map, length_seq.
  - apply (pages_schedule net _ _ _ _ Hv).
Qed.

Lemma driver_all_refused_down :
  value (get_youth_loans down_world 3 0%nat) = Ok []
  /\ posts (get_youth_loans down_world 3 0%nat) = 3%nat
  /\ schedule (events (get_youth_loans down_world 3 0%nat)) = three_pages_schedule.
Proof.
  exact (driver_all_refused down_world 3 0%nat (fun i rq => eq_refl)).
Defined.

Lemma py_range_first (pages : Z) :
  1 <= pages -> exists ps, py_range 1 (pages + 1) = 1 :: ps.
Proof.
  intros H. rewrite py_range_pages.
  destruct (Z.to_nat pages) as [ | k] eqn:E; [lia | ].
  cbn [seq map]. eexists. reflexivity.
Qed.

Lemma debug_page_not_iterable (net : world) (page : Z) (n : nat) :
  not_iterable (fetch_result net page n) = true ->
  debug_page net page tt n
  = Run (Raise TypeError) (S n)
      (page_line page :: events (fetch_loans net page 20 n)).
Proof.
  destruct (fetch_loans_run net page n) as (log & H & _).
  unfold debug_page. intros Hv.
  rewrite (bind_ok _ _ n n tt [page_line page]) by reflexivity.
  rewrite (bind_ok _ _ n (S n) _ _ H). rewrite H. cbn [events].
  rewrite (bind_raise _ _ (S n) (S n) TypeError []).
  - cbn. now rewrite app_nil_r.
  - destruct (fetch_result net page n); try discriminate; reflexivity.
Qed.

(** X10.  A value that cannot be iterated ([None], a number, a
    boolean), such as a [values] field that is null in a 200 response,
    passes through [fetch_loans] and makes both the driver and the
    diagnostic path end with [TypeError] at their [for] loop, right
    after the first POST. *)
Theorem values_not_iterable (net : world) (pages : Z) (n : nat)
    (Hpages : 1 <= pages)
    (Hvalues : not_iterable (fetch_result net 1 n) = true) :
  value (get_youth_loans net pages n) = Raise TypeError
  /\ posts (get_youth_loans net pages n) = S n
  /\ value (debug_age_field net pages n) = Raise TypeError
  /\ posts (debug_age_field net pages n) = S n.
Proof.
  destruct (py_range_first pages Hpages) as [ps Hps].
  assert (Hscan : forall acc, scan_items (fetch_result net 1 n) acc = Raise TypeError).
  { intros acc. unfold scan_items.
    destruct (fetch_result net 1 n); try discriminate; reflexivity. }
  unfold get_youth_loans, debug_age_field. rewrite Hps.
  rewrite pages_step, (Hscan []). cbn [value posts for_each].
  rewrite (bind_raise _ _ n (S n) TypeError _
             (debug_page_not_iterable net 1 n Hvalues)).
  cbn [value posts]. auto.
Qed.

Lemma values_not_iterable_null :
  value (get_youth_loans (one_page_world PNone) 3 0%nat) = Raise TypeError
  /\ posts (get_youth_loans (one_page_world PNone) 3 0%nat) = 1%nat
  /\ value (debug_age_field (one_page_world PNone) 3 0%nat) = Raise TypeError
  /\ posts (debug_age_field (one_page_world PNone) 3 0%nat) = 1%nat.
Proof.
  exact (values_not_iterable (one_page_world PNone) 3 0%nat ltac:(lia) eq_refl).
Defined.

(** X11.  The run of the driver on N + 1 pages is its run on N pages
    followed by the scan of what the fetch of page N + 1 returns: when
    it ends with a result, so does the shorter run, and the shorter
    result is an initial part of the longer one. *)
Theorem driver_next_page (net : world) (pages : Z) (n : nat)
    (Hpages : 0 <= pages) :
  value (get_youth_loans net (pages + 1) n)
  = (acc <-- value (get_youth_loans net pages n) ;
     scan_items (fetch_result net (pages + 1) (n + Z.to_nat pages)) acc)
  /\ (forall out',
         value (get_youth_loans net (pages + 1) n) = Ok out' ->
         exists out more,
           value (get_youth_loans net pages n) = Ok out
           /\ out' = out ++ more).
Proof.
  assert (Heq : value (get_youth_loans net (pages + 1) n)
                = (acc <-- value (get_youth_loans net pages n) ;
                   scan_items (fetch_result net (pages + 1) (n + Z.to_nat pages)) acc)).
  { rewrite !driver_value, !fetch_results_pages.
    replace (Z.to_nat (pages + 1)) with (S (Z.to_nat pages)) by lia.
    rewrite seq_S, map_app, rfold_app. cbn [map rfold Nat.add].
    replace (1 + Z.of_nat (Z.to_nat pages)) with (pages + 1) by lia.
    destruct (rfold scan_items _ []) as [acc | e]; cbn [rbind]; [ | reflexivity].
    destruct (scan_items _ acc); reflexivity. }
  split; [exact Heq | ].
  intros out' H. rewrite Heq in H.
  destruct (value (get_youth_loans net pages n)) as [out | e]; cbn [rbind] in H;
    [ | discriminate].
  apply scan_items_ok in H. eexists out, _. split; [reflexivity | exact H].
Qed.

Lemma driver_next_page_run :
  value (get_youth_loans (two_page_world (PList [loan_L1]) (PList [loan_L1])) 2 0%nat)
  = (acc <-- value (get_youth_loans
                      (two_page_world (PList [loan_L1]) (PList [loan_L1])) 1 0%nat) ;
     scan_items (fetch_result
                   (two_page_world (PList [loan_L1]) (PList [loan_L1])) 2 1%nat) acc).
Proof.
  exact (proj1 (driver_next_page
                  (two_page_world (PList [loan_L1]) (PList [loan_L1])) 1 0%nat
                  ltac:(lia))).
Defined.

(* ------------------------------------------------------------------ *)
(** ** More on the diagnostic path *)





(** The same page does not stop the driver: the record is too old to
    have its id read. *)
Example driver_skips_old_no_id :
  value (get_youth_loans (one_page_world (PList [loan_L1; loan_old_no_id])) 3 0%nat)
  = Ok [youth_L1].
Proof. reflexivity. Qed.

Lemma forallb_weaken {A} (P Q : A -> bool) (l : list A) :
  (forall x, P x = true -> Q x = true) ->
  forallb P l = true -> forallb Q l = true.
Proof.
  intros HPQ. induction l as [ | x l IH]; [reflexivity | ].
  cbn. intros H. apply andb_true_iff in H as [Hx Hl].
  now rewrite (HPQ x Hx), (IH Hl).
Qed.

Lemma bind_events {A B} (P : event -> bool) (m : M A) (k : A -> M B) (n : nat) :
  forallb P (events (m n)) = true ->
  (forall a n', forallb P (events (k a n')) = true) ->
  forallb P (events (bind m k n)) = true.
Proof.
  intros Hm Hk. unfold bind.
  destruct (value (m n)); cbn [events]; [ | exact Hm].
  rewrite forallb_app, Hm. apply Hk.
Qed.

Lemma for_each_events {A S} (P : event -> bool) (body : A -> S -> M S)
    (xs : list A) :
  (forall x acc n, forallb P (events (body x acc n)) = true) ->
  forall acc n, forallb P (events (for_each xs body acc n)) = true.
Proof.
  intros Hbody. induction xs as [ | x xs IH]; intros acc n; [reflexivity | ].
  cbn [for_each]. apply bind_events; [apply Hbody | intros a n'; apply IH].
Qed.

Lemma fetch_loans_no_sleep (net : world) (page per_page : Z) (n : nat) :
  forallb no_sleep (events (fetch_loans net page per_page n)) = true.
Proof.
  destruct (fetch_loans_total net page per_page n) as (v & log & H & Hlog).
  rewrite H. cbn [events forallb]. cbn [no_sleep is_sleep negb andb].
  apply (forallb_weaken is_print); [ | exact Hlog].
  intros [ | | ]; cbn; auto.
Qed.

Lemma debug_loan_no_sleep (loan : pyval) (n : nat) :
  forallb no_sleep (events (debug_loan loan n)) = true.
Proof.
  unfold debug_loan.
  apply bind_events; [reflexivity | intros t n1].
  destruct (py_eq_str t "LoanDirect"); [ | reflexivity].
  apply bind_events; [reflexivity | intros i n2].
  apply bind_events; [reflexivity | intros nm n3].
  apply bind_events; [reflexivity | intros a n4]. reflexivity.
Qed.

(** X13.  The diagnostic path never pauses, whatever the world answers
    and whether the run ends or is cut short by an exception: no
    [time.sleep] occurs in its trace. *)
Theorem diagnostic_never_pauses (net : world) (pages : Z) (n : nat) :
  forallb no_sleep (events (debug_age_field net pages n)) = true.
Proof.
  unfold debug_age_field. apply for_each_events. intros page [] m.
  unfold debug_page.
  apply bind_events; [reflexivity | intros _ n1].
  apply bind_events; [apply fetch_loans_no_sleep | intros loans n2].
  apply bind_events; [reflexivity | intros items n3].
  apply for_each_events. intros loan [] n4. apply debug_loan_no_sleep.
Qed.



(* ------------------------------------------------------------------ *)
(** ** The request names its page *)

Lemma append_assoc_str (a b c : string) :
  ((a ++ b) ++ c = a ++ (b ++ c))%string.
Proof.
  induction a as [ | x a IH]; [reflexivity | ].
  change (String x a ++ b)%string with (String x (a ++ b)%string).
  change (String x (a ++ b) ++ c)%string with (String x ((a ++ b) ++ c)%string).
  change (String x a ++ (b ++ c))%string with (String x (a ++ (b ++ c))%string).
  now rewrite IH.
Qed.

Lemma append_cancel_l (p a b : string) :
  (p ++ a = p ++ b)%string -> a = b.
Proof.
  induction p as [ | x p IH]; [auto | ].
  change (String x p ++ a)%string with (String x (p ++ a)%string).
  change (String x p ++ b)%string with (String x (p ++ b)%string).
  intros H. injection H as H. auto.
Qed.

Lemma append_empty_l (s : string) : (EmptyString ++ s)%string = s.
Proof. reflexivity. Qed.

Lemma append_cons (c : ascii) (s t : string) :
  (String c s ++ t)%string = String c (s ++ t)%string.
Proof. reflexivity. Qed.

(** Two texts without [c], each followed by [c] and a rest: equal
    wholes have equal parts. *)
Lemma split_at_char (c : ascii) (a a' x x' : string) :
  has_char c a = false ->
  has_char c a' = false ->
  (a ++ String c x = a' ++ String c x')%string ->
  a = a' /\ x = x'.
Proof.
  revert a'. induction a as [ | y a IH]; intros [ | y' a'] Ha Ha'.
  - change (EmptyString ++ ?s)%string with s.
    intros H. injection H as H. auto.
  - change (EmptyString ++ ?s)%string with s. rewrite append_cons.
    intros H. injection H as H _. subst y'.
    cbn in Ha'. now rewrite Ascii.eqb_refl in Ha'.
  - change (EmptyString ++ ?s)%string with s. rewrite append_cons.
    intros H. injection H as H _. subst y.
    cbn in Ha. now rewrite Ascii.eqb_refl in Ha.
  - rewrite !append_cons. intros H. injection H as Hy H.
    cbn in Ha, Ha'. apply orb_false_iff in Ha as [_ Ha].
    apply orb_false_iff in Ha' as [_ Ha'].
    destruct (IH a' Ha Ha' H) as [-> ->]. now subst.
Qed.

Lemma uint_no_comma (d : Decimal.uint) :
  has_char "," (NilEmpty.string_of_uint d) = false.
Proof. induction d; cbn; auto. Qed.

Lemma str_of_int_no_comma (z : Z) : has_char "," (str_of_int z) = false.
Proof.
  unfold str_of_int, NilZero.string_of_int, NilZero.string_of_uint.
  destruct (Z.to_int z) as [d | d]; destruct d; cbn [has_char];
    try reflexivity; cbn; apply uint_no_comma.
Qed.

Lemma str_of_int_inj (a b : Z) : str_of_int a = str_of_int b -> a = b.
Proof.
  unfold str_of_int. intros H. apply DecimalZ.to_int_inj.
  assert (Hnn : forall z, Z.to_int z <> Decimal.Pos Decimal.Nil
                          /\ Z.to_int z <> Decimal.Neg Decimal.Nil).
  { intros [ | q | q]; cbn; split; try discriminate;
      intros E; injection E as E; now apply DecimalPos.Unsigned.to_uint_nonnil in E. }
  apply (f_equal NilZero.int_of_string) in H.
  rewrite !NilZero.isi in H by apply Hnn.
  now injection H.
Qed.

(** X15.  The request [fetch_loans] posts determines the page and the
    page size it was built for: two calls post the same request only
    when they ask for the same page with the same page size. *)
Theorem request_names_page (page per_page page' per_page' : Z) :
  loans_request page per_page = loans_request page' per_page'
  <-> page = page' /\ per_page = per_page'.
Proof.
  split; [ | now intros [-> ->]].
  intros H. apply (f_equal rq_json) in H. unfold loans_request in H.
  cbn [rq_json] in H. injection H as H.
  unfold query_text in H. cbn [String.concat] in H.
  rewrite !append_assoc_str, !append_empty_l in H.
  rewrite !(append_cons "," " pageNumber:") in H.
  apply split_at_char in H as [Hpp H]; try apply str_of_int_no_comma.
  apply (append_cancel_l " pageNumber:") in H.
  rewrite !(append_cons "," " sortBy:mostRecent) {") in H.
  apply split_at_char in H as [Hp _]; try apply str_of_int_no_comma.
  split; now apply str_of_int_inj.
Qed.
